(** * Chatviewer REST API: the chat controller

    A shallow embedding of [apps/rest-api/src/controllers/chatController.ts].
    The nine Express handlers are written in a small monad that threads the
    datastore, records every datastore operation in a log, and has two ways
    of leaving a handler early: a response has been sent, or a JavaScript
    exception is in flight.

    JavaScript values are dynamically typed, and several properties of the
    controller depend on exactly that (the truthiness of a pending promise,
    indexing a model instance with [0], reading a property of [null]), so the
    handlers work on a universal value type [JsValue]. *)

From Stdlib Require Import ZArith List String Ascii Bool Lia.
From Stdlib Require Import Sorting.Sorted Sorting.Permutation DecimalString.
Import ListNotations.

Set Warnings "-register-all".
Local Open Scope list_scope.
Local Open Scope string_scope.
Local Open Scope Z_scope.

(** ** JavaScript values *)

Module Js.

(** Numbers.  Only the integral doubles and NaN are represented: every number
    the controller computes with is a row id, a page number or a count. *)
Inductive JsNumber : Type :=
| NaN
| Num (z : Z).

(** [VToken] is a JSON Web Token string kept symbolic: the payload that was
    signed, the key it was signed with and the [exp] claim in seconds.  Any
    other string is not a well-formed token. *)
Inductive JsValue : Type :=
| VUndefined
| VNull
| VBool (b : bool)
| VNum (n : JsNumber)
| VStr (s : string)
| VToken (payload : JsValue) (key : string) (exp : option Z)
| VBuffer (bytes : list Byte.byte)
| VObj (fields : list (string * JsValue))
| VArr (items : list JsValue)
| VPromise (settled : JsValue).

Inductive JsError : Type :=
| TypeError (message : string)
| JsonWebTokenError (message : string)
| TokenExpiredError (message : string)
| DatabaseError (message : string)
| Error (message : string).

Definition error_message (e : JsError) : string :=
  match e with
  | TypeError m | JsonWebTokenError m | TokenExpiredError m
  | DatabaseError m | Error m => m
  end.

(** ToBoolean.  Every object is truthy, a promise included. *)
Definition truthy (v : JsValue) : bool :=
  match v with
  | VUndefined | VNull => false
  | VBool b => b
  | VNum NaN => false
  | VNum (Num z) => negb (z =? 0)
  | VStr s => negb (s =? "")%string
  | VToken _ _ _ | VBuffer _ | VObj _ | VArr _ | VPromise _ => true
  end.

(** The operator [!]. *)
Definition js_not (v : JsValue) : bool := negb (truthy v).

Definition typeof (v : JsValue) : string :=
  match v with
  | VUndefined => "undefined"
  | VBool _ => "boolean"
  | VNum _ => "number"
  | VStr _ | VToken _ _ _ => "string"
  | VNull | VBuffer _ | VObj _ | VArr _ | VPromise _ => "object"
  end.

Definition string_of_Z (z : Z) : string := NilZero.string_of_int (Z.to_int z).

(** Number to string, as a template literal does it. *)
Definition string_of_number (n : JsNumber) : string :=
  match n with
  | NaN => "NaN"
  | Num z => string_of_Z z
  end.

Definition js_sub (a b : JsNumber) : JsNumber :=
  match a, b with
  | Num x, Num y => Num (x - y)
  | _, _ => NaN
  end.

Definition js_add (a b : JsNumber) : JsNumber :=
  match a, b with
  | Num x, Num y => Num (x + y)
  | _, _ => NaN
  end.

Definition js_mul (a b : JsNumber) : JsNumber :=
  match a, b with
  | Num x, Num y => Num (x * y)
  | _, _ => NaN
  end.

(** The operators [>] and [<]: false as soon as one side is NaN. *)
Definition js_gt (a b : JsNumber) : bool :=
  match a, b with
  | Num x, Num y => y <? x
  | _, _ => false
  end.

Definition js_lt (a b : JsNumber) : bool := js_gt b a.

(** [Math.ceil(a / b)].  [Z.div] rounds towards minus infinity, so the
    ceiling of the exact quotient is [- ((- a) / b)].  A zero divisor gives
    an infinity or NaN in JavaScript; the controller never divides by zero
    (the page size is checked first) and the model answers NaN there. *)
Definition ceil_div (a b : Z) : Z := - ((- a) / b).

Definition js_ceil_div (a b : JsNumber) : JsNumber :=
  match a, b with
  | Num x, Num y => if y =? 0 then NaN else Num (ceil_div x y)
  | _, _ => NaN
  end.

Fixpoint lookup (k : string) (fields : list (string * JsValue)) : option JsValue :=
  match fields with
  | [] => None
  | (k', v) :: rest => if (k =? k')%string then Some v else lookup k rest
  end.

Definition has_field (k : string) (v : JsValue) : bool :=
  match v with
  | VObj fields => match lookup k fields with Some _ => true | None => false end
  | _ => false
  end.

Definition cannot_read (base prop : string) : JsError :=
  TypeError ("Cannot read properties of " ++ base ++ " (reading '" ++ prop ++ "')").

(** Property read [v.k] and [v[k]]: an exception on [undefined] and [null],
    the value of the field on an object that has it, [undefined] otherwise.
    An array answers its [length] and its numeric indices. *)
Definition read_prop (v : JsValue) (k : string) : JsError + JsValue :=
  match v with
  | VUndefined => inl (cannot_read "undefined" k)
  | VNull => inl (cannot_read "null" k)
  | VObj fields =>
      inr (match lookup k fields with Some x => x | None => VUndefined end)
  | VArr items =>
      if (k =? "length")%string then inr (VNum (Num (Z.of_nat (List.length items))))
      else inr VUndefined
  | _ => inr VUndefined
  end.

Definition read_index (v : JsValue) (i : nat) : JsError + JsValue :=
  match v with
  | VArr items => inr (nth i items VUndefined)
  | _ => read_prop v (string_of_Z (Z.of_nat i))
  end.

(** ToString, as a template literal applies it to an interpolated value.
    Objects other than strings and numbers are never interpolated by the
    controller; the model prints them all as a plain object. *)
Definition to_string (v : JsValue) : string :=
  match v with
  | VUndefined => "undefined"
  | VNull => "null"
  | VBool true => "true"
  | VBool false => "false"
  | VNum n => string_of_number n
  | VStr s => s
  | VToken _ _ _ => "<jwt>"
  | VBuffer _ | VObj _ | VArr _ | VPromise _ => "[object Object]"
  end.

(** [JSON.stringify] writes NaN as [null]. *)
Definition json_number (n : JsNumber) : JsValue :=
  match n with
  | NaN => VNull
  | Num z => VNum (Num z)
  end.

End Js.
Import Js.

(** ** Requests, responses and the datastore *)

Module Http.

Inductive Body : Type :=
| Json (v : JsValue)
| Raw (bytes : list Byte.byte).

Record Response : Type := mkResponse {
  status : Z;
  headers : list (string * JsValue);
  body : Body
}.

(** What a handler reads from [req] and [res.locals].  The numeric fields
    hold the value after the unary [+] the source applies to them:
    [auth_userId] is [+res.locals.user_auth_payload?.userId], [chat_id] is
    [+req.params.chat_id], [perPage] and [page] are [+req.query[...]]; a
    missing or non-numeric parameter is NaN. *)
Record Request : Type := mkRequest {
  auth_userId : JsNumber;
  chat_id : JsNumber;
  token : JsValue;
  perPage : JsNumber;
  page : JsNumber;
  sortBy : JsValue;
  expiresIn : JsValue;
  body_base64 : string;
  body_name : string;
  protocol : string;
  host : string;
  baseUrl : string;
  path : string;
  originalUrl : string
}.

(** [{ message: m }] *)
Definition message (m : string) : JsValue := VObj [("message", VStr m)].

(** [res.status(code).json(v)] *)
Definition json_response (code : Z) (v : JsValue) : Response :=
  mkResponse code [] (Json v).

(** [res.send(v)]: a buffer is sent as it is, anything else as JSON. *)
Definition send_body (v : JsValue) : Body :=
  match v with
  | VBuffer bytes => Raw bytes
  | _ => Json v
  end.

End Http.
Import Http.

Module Store.

(** Modelled from the spec: the [User] model is declared in [../models],
    which is not among the sources.  A user "has a unique [userId]" and is
    "referenced only by foreign key"; the controller reads no other column. *)
Record UserRow : Type := mkUser {
  u_userId : Z
}.

(** Modelled from the spec: the [Chat] model is declared in [../models],
    which is not among the sources.  The columns are those of the data model
    (section 3) and of the SELECT lists of the controller; the timestamps
    are milliseconds. *)
Record ChatRow : Type := mkChat {
  chatId : Z;
  userId : Z;
  name : string;
  mimeType : string;
  data : list Byte.byte;
  createdAt : Z;
  updatedAt : Z
}.

(** The two tables, rows in insertion order, and the next auto-increment
    value of [chatId]. *)
Record Db : Type := mkDb {
  users : list UserRow;
  chats : list ChatRow;
  nextChatId : Z
}.

Inductive Column : Type := ColName | ColCreatedAt | ColUpdatedAt.
Inductive Direction : Type := Asc | Desc.

(** The datastore operations a handler can perform, as they are logged. *)
Inductive DbOp : Type :=
| UserFindOne (userId : JsValue)
| UserCreateChat (userId : JsValue)
| UserHasChat (userId chatId : JsValue)
| SelectChats (userId : JsValue)
| CountChats (userId : JsValue)
| ChatFindOne (chatId userId : JsValue)
| ChatUpdate (chatId userId : JsValue)
| ChatDestroy (chatId : JsValue)
| SelectChatById (chatId : JsValue)
| ChatFindByPk (chatId : JsValue).

Record World : Type := mkWorld {
  db : Db;
  log : list DbOp
}.

(** Comparison of a bound JavaScript value with an integer column: a number
    equals the column it is equal to; NaN, [null], [undefined] and the other
    values match no row. *)
Definition sql_eq (v : JsValue) (z : Z) : bool :=
  match v with
  | VNum (Num n) => n =? z
  | _ => false
  end.

(** A model instance: an object with one property per selected column. *)
Definition user_instance (u : UserRow) : JsValue :=
  VObj [("userId", VNum (Num (u_userId u)))].

Definition chat_metadata (c : ChatRow) : list (string * JsValue) :=
  [ ("chatId", VNum (Num (chatId c)));
    ("userId", VNum (Num (userId c)));
    ("name", VStr (name c));
    ("createdAt", VNum (Num (createdAt c)));
    ("updatedAt", VNum (Num (updatedAt c))) ].

(** [attributes: { exclude: ['data'] }] *)
Definition chat_instance_without_data (c : ChatRow) : JsValue :=
  VObj (chat_metadata c ++ [("mimeType", VStr (mimeType c))]).

Definition chat_instance (c : ChatRow) : JsValue :=
  VObj (chat_metadata c ++
        [("mimeType", VStr (mimeType c)); ("data", VBuffer (data c))]).

(** The row of [SELECT chatId, userId, createdAt, updatedAt]. *)
Definition chat_row_without_name (c : ChatRow) : JsValue :=
  VObj [ ("chatId", VNum (Num (chatId c)));
         ("userId", VNum (Num (userId c)));
         ("createdAt", VNum (Num (createdAt c)));
         ("updatedAt", VNum (Num (updatedAt c))) ].

Definition nullable (o : option JsValue) : JsValue :=
  match o with
  | Some v => v
  | None => VNull
  end.

Definition owned_by (uid : JsValue) (c : ChatRow) : bool := sql_eq uid (userId c).

Definition chat_matches (cid uid : JsValue) (c : ChatRow) : bool :=
  sql_eq cid (chatId c) && sql_eq uid (userId c).

(** *** ORDER BY, LIMIT and OFFSET

    The order of the datastore is modelled by a stable insertion sort; names
    are compared as byte strings (the collation is the datastore's). *)
Definition column_leb (col : Column) (a b : ChatRow) : bool :=
  match col with
  | ColName => String.leb (name a) (name b)
  | ColCreatedAt => createdAt a <=? createdAt b
  | ColUpdatedAt => updatedAt a <=? updatedAt b
  end.

Definition order_leb (col : Column) (dir : Direction) (a b : ChatRow) : bool :=
  match dir with
  | Asc => column_leb col a b
  | Desc => column_leb col b a
  end.

Fixpoint insert_row (leb : ChatRow -> ChatRow -> bool) (x : ChatRow)
  (l : list ChatRow) : list ChatRow :=
  match l with
  | [] => [x]
  | y :: l' => if leb x y then x :: l else y :: insert_row leb x l'
  end.

Fixpoint sort_rows (leb : ChatRow -> ChatRow -> bool) (l : list ChatRow)
  : list ChatRow :=
  match l with
  | [] => []
  | x :: l' => insert_row leb x (sort_rows leb l')
  end.

Definition order_by (o : option (Column * Direction)) (l : list ChatRow)
  : list ChatRow :=
  match o with
  | Some (col, dir) => sort_rows (order_leb col dir) l
  | None => l
  end.

(** [LIMIT n OFFSET k] *)
Definition limit_offset (n k : nat) (l : list ChatRow) : list ChatRow :=
  firstn n (skipn k l).

End Store.
Import Store.

(** ** The handler monad *)

Module Eff.

(** A step of a handler either goes on with a value, has sent the response
    (every [res.json] and [res.send] of the controller is the last statement
    executed on its path), or has thrown. *)
Inductive Step (A : Type) : Type :=
| Next (a : A)
| Sent (r : Response)
| Thrown (e : JsError).

Arguments Next {A} a.
Arguments Sent {A} r.
Arguments Thrown {A} e.

Definition M (A : Type) : Type := World -> Step A * World.

Definition ret {A : Type} (a : A) : M A := fun w => (Next a, w).

Definition bind {A B : Type} (m : M A) (k : A -> M B) : M B :=
  fun w =>
    match m w with
    | (Next a, w') => k a w'
    | (Sent r, w') => (Sent r, w')
    | (Thrown e, w') => (Thrown e, w')
    end.

Definition respond {A : Type} (r : Response) : M A := fun w => (Sent r, w).

Definition throw {A : Type} (e : JsError) : M A := fun w => (Thrown e, w).

(** [try { body } catch (error) { handler }] *)
Definition try_catch {A : Type} (body : M A) (handler : JsError -> M A) : M A :=
  fun w =>
    match body w with
    | (Thrown e, w') => handler e w'
    | r => r
    end.

(** [if (c) { return ...; }] *)
Definition when (c : bool) (m : M unit) : M unit := if c then m else ret tt.

Definition perform (op : DbOp) : M unit :=
  fun w => (Next tt, mkWorld (db w) (log w ++ [op])).

Definition get_db : M Db := fun w => (Next (db w), w).

Definition put_db (d : Db) : M unit := fun w => (Next tt, mkWorld d (log w)).

Definition lift (r : JsError + JsValue) : M JsValue :=
  match r with
  | inl e => throw e
  | inr v => ret v
  end.

Definition get_prop (v : JsValue) (k : string) : M JsValue := lift (read_prop v k).

Definition get_index (v : JsValue) (i : nat) : M JsValue := lift (read_index v i).

End Eff.
Import Eff.

Notation "x <- m ;; k" := (bind m (fun x => k))
  (at level 61, m at next level, right associativity).
Notation "m ;; k" := (bind m (fun _ => k))
  (at level 61, right associativity).

(** [Array.prototype.map] with a callback that can throw. *)
Fixpoint map_m {A B : Type} (f : A -> M B) (l : list A) : M (list B) :=
  match l with
  | [] => ret []
  | x :: l' => y <- f x ;; ys <- map_m f l' ;; ret (y :: ys)
  end.

(** ** Sequelize: the models and the raw queries *)

Module Sequelize.

(** [User.findOne({ where: { userId } })] *)
Definition User_findOne (uid : JsValue) : M JsValue :=
  perform (UserFindOne uid) ;;
  d <- get_db ;;
  ret (nullable (option_map user_instance
                   (find (fun u => sql_eq uid (u_userId u)) (users d)))).

(** [user.createChat({ mimeType, data, name })]: the row gets the next
    [chatId], the id of [user] and the current time in both timestamps. *)
Definition createChat (now : Z) (user : JsValue) (mime : string)
  (bytes : list Byte.byte) (nm : string) : M JsValue :=
  uid <- get_prop user "userId" ;;
  perform (UserCreateChat uid) ;;
  d <- get_db ;;
  match uid with
  | VNum (Num u) =>
      let c := mkChat (nextChatId d) u nm mime bytes now now in
      put_db (mkDb (users d) (chats d ++ [c]) (nextChatId d + 1)) ;;
      ret (chat_instance c)
  | _ => throw (DatabaseError "userId cannot be null")
  end.

(** [user.hasChat(chatId)].  An association mixin is asynchronous: the call
    issues the query and returns a promise of the answer. *)
Definition hasChat (user : JsValue) (cid : JsValue) : M JsValue :=
  uid <- get_prop user "userId" ;;
  perform (UserHasChat uid cid) ;;
  d <- get_db ;;
  ret (VPromise (VBool (existsb (chat_matches cid uid) (chats d)))).

(** The raw SELECT of the list endpoint, as the source concatenates it: the
    ORDER BY term and the LIMIT and OFFSET numbers are optional. *)
Record SelectQuery : Type := mkSelect {
  order_term : option string;
  limit_clause : option (JsNumber * JsNumber)
}.

Definition parse_order_term (t : string) : option (Column * Direction) :=
  if (t =? "name")%string then Some (ColName, Asc)
  else if (t =? "createdAt")%string then Some (ColCreatedAt, Asc)
  else if (t =? "updatedAt")%string then Some (ColUpdatedAt, Asc)
  else if (t =? "name DESC")%string then Some (ColName, Desc)
  else if (t =? "createdAt DESC")%string then Some (ColCreatedAt, Desc)
  else if (t =? "updatedAt DESC")%string then Some (ColUpdatedAt, Desc)
  else None.

(** The rows a SELECT answers; [None] when the datastore rejects the query
    (an unknown column, a LIMIT or OFFSET that is not a natural number). *)
Definition select_rows (q : SelectQuery) (uid : JsValue) (d : Db)
  : option (list ChatRow) :=
  let owned := filter (owned_by uid) (chats d) in
  match order_term q with
  | None => Some owned
  | Some t =>
      match parse_order_term t with
      | Some o => Some (order_by (Some o) owned)
      | None => None
      end
  end.

Definition apply_limit (q : SelectQuery) (rows : list ChatRow)
  : option (list ChatRow) :=
  match limit_clause q with
  | None => Some rows
  | Some (Num n, Num k) =>
      if (0 <=? n) && (0 <=? k)
      then Some (limit_offset (Z.to_nat n) (Z.to_nat k) rows)
      else None
  | Some _ => None
  end.

Definition run_select (q : SelectQuery) (uid : JsValue) (d : Db)
  : option (list ChatRow) :=
  match select_rows q uid d with
  | Some rows => apply_limit q rows
  | None => None
  end.

(** [SELECT chatId, userId, name, createdAt, updatedAt ... WHERE userId = ?] *)
Definition query_chats (q : SelectQuery) (uid : JsValue) : M (list JsValue) :=
  perform (SelectChats uid) ;;
  d <- get_db ;;
  match run_select q uid d with
  | Some rows => ret (map (fun c => VObj (chat_metadata c)) rows)
  | None => throw (DatabaseError "SQL syntax error")
  end.

Definition count_owned (uid : JsValue) (d : Db) : Z :=
  Z.of_nat (List.length (filter (owned_by uid) (chats d))).

(** [SELECT COUNT( * ) as total ... WHERE userId = ?], read through [.total]
    and the unary [+]. *)
Definition query_count (uid : JsValue) : M JsNumber :=
  perform (CountChats uid) ;;
  d <- get_db ;;
  ret (Num (count_owned uid d)).

(** A NaN in a [where] object is written bare into the text of the query,
    and the datastore rejects the query: the call throws. *)
Definition where_rejected (v : JsValue) : bool :=
  match v with
  | VNum NaN => true
  | _ => false
  end.

Definition nan_in_where : JsError :=
  DatabaseError "Unknown column 'NaN' in 'where clause'".

(** [Chat.findOne({ where: { chatId, userId } })], with or without the
    [data] column. *)
Definition Chat_findOne (with_data : bool) (cid uid : JsValue) : M JsValue :=
  perform (ChatFindOne cid uid) ;;
  if where_rejected cid || where_rejected uid then throw nan_in_where
  else
    d <- get_db ;;
    ret (nullable (option_map
                     (if with_data then chat_instance else chat_instance_without_data)
                     (find (chat_matches cid uid) (chats d)))).

Definition rename_row (now : Z) (nm : string) (cid uid : JsValue) (c : ChatRow)
  : ChatRow :=
  if chat_matches cid uid c
  then mkChat (chatId c) (userId c) nm (mimeType c) (data c) (createdAt c) now
  else c.

(** [Chat.update({ name }, { where: { userId, chatId } })]: answers the
    array whose first element is the number of rows affected. *)
Definition Chat_update (now : Z) (nm : string) (uid cid : JsValue) : M JsValue :=
  perform (ChatUpdate cid uid) ;;
  if where_rejected cid || where_rejected uid then throw nan_in_where
  else
    d <- get_db ;;
    put_db (mkDb (users d) (map (rename_row now nm cid uid) (chats d))
                 (nextChatId d)) ;;
    ret (VArr [VNum (Num (Z.of_nat
            (List.length (filter (chat_matches cid uid) (chats d)))))]).

(** [chat.destroy()]: deletes the row with the primary key of the instance. *)
Definition destroy (chat : JsValue) : M unit :=
  cid <- get_prop chat "chatId" ;;
  perform (ChatDestroy cid) ;;
  d <- get_db ;;
  put_db (mkDb (users d) (filter (fun c => negb (sql_eq cid (chatId c))) (chats d))
               (nextChatId d)).

Definition replacement_undefined : JsError :=
  Error "Positional replacement (?) 0 has no entry in the replacement map (replacements[0] is undefined).".

(** [SELECT chatId, userId, createdAt, updatedAt ... WHERE chatId = ?].
    [sequelize.query] refuses an [undefined] replacement before it sends any
    SQL; a NaN replacement is written bare into the query, which the
    datastore rejects. *)
Definition query_chat_by_id (cid : JsValue) : M JsValue :=
  match cid with
  | VUndefined => throw replacement_undefined
  | _ =>
      perform (SelectChatById cid) ;;
      if where_rejected cid then throw nan_in_where
      else
        d <- get_db ;;
        ret (VArr (map chat_row_without_name
                     (filter (fun c => sql_eq cid (chatId c)) (chats d))))
  end.

(** [Chat.findByPk(id)] *)
Definition Chat_findByPk (cid : JsValue) : M JsValue :=
  perform (ChatFindByPk cid) ;;
  d <- get_db ;;
  ret (nullable (option_map chat_instance
                   (find (fun c => sql_eq cid (chatId c)) (chats d)))).

End Sequelize.
Import Sequelize.

(** ** The blob codec: the regular expression, [split] and base64 *)

Module Codec.

Local Open Scope char_scope.

Definition in_range (lo hi : N) (a : ascii) : bool :=
  let n := N_of_ascii a in ((lo <=? n) && (n <=? hi))%N.

(** [\w] *)
Definition is_word (a : ascii) : bool :=
  in_range 48 57 a || in_range 65 90 a || in_range 97 122 a || (a =? "_").

(** [[\w-+\d.]] *)
Definition is_subtype_char (a : ascii) : bool :=
  is_word a || (a =? "-") || (a =? "+") || in_range 48 57 a || (a =? ".").

(** The fragment of regular expressions the controller uses: a sequence of
    atoms, each one character of a class, a greedy [+] of a class, or a
    lookahead [(?=...)] for one character of a class. *)
Inductive Atom : Type :=
| One (cls : ascii -> bool)
| Plus (cls : ascii -> bool)
| Ahead (cls : ascii -> bool).

(** Backtracking match of a sequence of atoms at the start of [s]; answers
    the text consumed.  A [Plus] first tries to take one more character. *)
Fixpoint match_here (re : list Atom) (s : list ascii) : option (list ascii) :=
  match re with
  | [] => Some []
  | One cls :: re' =>
      match s with
      | a :: s' => if cls a then option_map (cons a) (match_here re' s') else None
      | [] => None
      end
  | Plus cls :: re' =>
      (fix plus (t : list ascii) : option (list ascii) :=
         match t with
         | a :: t' =>
             if cls a then
               match plus t' with
               | Some m => Some (a :: m)
               | None => option_map (cons a) (match_here re' t')
               end
             else None
         | [] => None
         end) s
  | Ahead cls :: re' =>
      match s with
      | a :: _ => if cls a then match_here re' s else None
      | [] => None
      end
  end.

(** The leftmost match. *)
Fixpoint search (re : list Atom) (s : list ascii) : option (list ascii) :=
  match match_here re s with
  | Some m => Some m
  | None =>
      match s with
      | [] => None
      | _ :: s' => search re s'
      end
  end.

(** [/[^:]\w+\/[\w-+\d.]+(?=;|,)/] *)
Definition mime_regex : list Atom :=
  [ One (fun a => negb (a =? ":"));
    Plus is_word;
    One (fun a => a =? "/");
    Plus is_subtype_char;
    Ahead (fun a => (a =? ";") || (a =? ",")) ].

(** [s.match(mime_regex)]: [None] is [null], [Some m] is the match array,
    whose element [0] is the text matched. *)
Definition string_match (s : string) : option string :=
  option_map string_of_list_ascii (search mime_regex (list_ascii_of_string s)).

(** [s.split(',')] *)
Fixpoint split_comma (s : string) : list string :=
  match s with
  | EmptyString => [EmptyString]
  | String a s' =>
      if a =? "," then EmptyString :: split_comma s'
      else
        match split_comma s' with
        | h :: t => String a h :: t
        | [] => [String a EmptyString]
        end
  end.

(** The value of a character of the base64 alphabets (the URL-safe one is
    accepted too). *)
Definition sextet (a : ascii) : option N :=
  let n := N_of_ascii a in
  if in_range 65 90 a then Some (n - 65)%N
  else if in_range 97 122 a then Some (n - 71)%N
  else if in_range 48 57 a then Some (n + 4)%N
  else if (a =? "+") || (a =? "-") then Some 62%N
  else if (a =? "/") || (a =? "_") then Some 63%N
  else None.

(** Node's decoder is lenient: it stops at the first [=] and skips the
    characters that are not in the alphabet. *)
Fixpoint sextets (s : list ascii) : list N :=
  match s with
  | [] => []
  | a :: s' =>
      if a =? "=" then []
      else
        match sextet a with
        | Some v => v :: sextets s'
        | None => sextets s'
        end
  end.

Definition byte_of_N (n : N) : Byte.byte := byte_of_ascii (ascii_of_N (n mod 256)).

Fixpoint bytes_of_sextets (l : list N) : list Byte.byte :=
  match l with
  | a :: b :: c :: d :: l' =>
      byte_of_N (a * 4 + b / 16)
      :: byte_of_N (b * 16 + c / 4)
      :: byte_of_N (c * 64 + d)
      :: bytes_of_sextets l'
  | [a; b; c] => [byte_of_N (a * 4 + b / 16); byte_of_N (b * 16 + c / 4)]
  | [a; b] => [byte_of_N (a * 4 + b / 16)]
  | _ => []
  end%N.

Definition base64_decode (s : string) : list Byte.byte :=
  bytes_of_sextets (sextets (list_ascii_of_string s)).

End Codec.
Import Codec.

(** ** jsonwebtoken *)

Module Jwt.

(** The process environment and the clock.  [ms] is the time-span parser of
    the [ms] package that [jwt.sign] applies to a string [expiresIn]; it
    answers milliseconds, or nothing for a string it cannot read. *)
Record Env : Type := mkEnv {
  JWT_SECRET : option string;
  now_ms : Z;
  ms : string -> option Z
}.

Definition now_seconds (env : Env) : Z := now_ms env / 1000.

Definition json_field (kv : string * JsValue) : string * JsValue :=
  match kv with
  | (k, VNum n) => (k, json_number n)
  | _ => kv
  end.

(** The payload as it is serialised into the token. *)
Definition json_payload (v : JsValue) : JsValue :=
  match v with
  | VObj fields => VObj (map json_field fields)
  | _ => v
  end.

(** [jwt.sign(payload, process.env.JWT_SECRET, { expiresIn })].  An empty
    secret is falsy and counts as a missing one. *)
Definition sign (env : Env) (payload : JsValue) (expiry : string) : M JsValue :=
  match JWT_SECRET env with
  | None => throw (Error "secretOrPrivateKey must have a value")
  | Some key =>
      if (key =? "")%string
      then throw (Error "secretOrPrivateKey must have a value")
      else
        match ms env expiry with
        | None => throw (Error "expiresIn should be a number of seconds or string representing a timespan")
        | Some span =>
            ret (VToken (json_payload payload) key
                        (Some (now_seconds env + span / 1000)))
        end
  end.

(** [jwt.verify(token, secret)]: the decoded payload, or an exception when
    the token is not a token, the key differs, or [exp] has been reached. *)
Definition verify (env : Env) (tok : JsValue) : M JsValue :=
  match tok with
  | VToken payload key exp =>
      match JWT_SECRET env with
      | None => throw (JsonWebTokenError "secret or public key must be provided")
      | Some secret =>
          if (key =? secret)%string then
            match exp with
            | Some e =>
                if e <=? now_seconds env
                then throw (TokenExpiredError "jwt expired")
                else ret payload
            | None => ret payload
            end
          else throw (JsonWebTokenError "invalid signature")
      end
  | VStr _ => throw (JsonWebTokenError "jwt malformed")
  | VUndefined | VNull => throw (JsonWebTokenError "jwt must be provided")
  | _ => throw (JsonWebTokenError "jwt must be a string")
  end.

End Jwt.
Import Jwt.

(** ** The controller *)

Module ChatController.

Definition not_a_valid_token : Response := json_response 403 (message "Not a valid token").
Definition user_not_found : Response := json_response 404 (message "User not found").
Definition chat_not_found : Response := json_response 404 (message "Chat not found").

(** [m[0]] on the result of [String.prototype.match]. *)
Definition match_zero (m : option string) : M string :=
  match m with
  | Some text => ret text
  | None => throw (cannot_read "null" "0")
  end.

(** [Buffer.from(x, 'base64')]; [x] is [undefined] when [split] answered a
    single piece. *)
Definition Buffer_from_base64 (x : option string) : M (list Byte.byte) :=
  match x with
  | Some s => ret (base64_decode s)
  | None => throw (TypeError "The first argument must be of type string or an instance of Buffer, ArrayBuffer, or Array or an Array-like Object. Received undefined")
  end.

(** The six properties of the owner-scoped metadata responses. *)
Definition metadata_response (blobUrl : string) (cid uid nm created updated : JsValue)
  : JsValue :=
  VObj [ ("blobUrl", VStr blobUrl);
         ("chatId", cid);
         ("userId", uid);
         ("name", nm);
         ("createdAt", created);
         ("updatedAt", updated) ].

(** [`${req.protocol}://${req.get('host')}${req.baseUrl}${req.path}${id}/blob`] *)
Definition collection_blob_url (req : Request) (cid : JsValue) : string :=
  protocol req ++ "://" ++ host req ++ baseUrl req ++ path req
  ++ to_string cid ++ "/blob".

(** [`${req.protocol}://${req.get('host')}${req.originalUrl}/blob`] *)
Definition item_blob_url (req : Request) : string :=
  protocol req ++ "://" ++ host req ++ originalUrl req ++ "/blob".

Definition postChatController (env : Env) (req : Request) : M unit :=
  let userID := VNum (auth_userId req) in
  when (js_not userID) (respond not_a_valid_token) ;;
  user <- User_findOne userID ;;
  when (js_not user) (respond user_not_found) ;;
  mimeType <- match_zero (string_match (body_base64 req)) ;;
  let base64 := nth_error (split_comma (body_base64 req)) 1 in
  data <- Buffer_from_base64 base64 ;;
  chat <- createChat (now_ms env) user mimeType data (body_name req) ;;
  cid <- get_prop chat "chatId" ;;
  uid <- get_prop chat "userId" ;;
  nm <- get_prop chat "name" ;;
  created <- get_prop chat "createdAt" ;;
  updated <- get_prop chat "updatedAt" ;;
  respond (json_response 200
             (metadata_response (collection_blob_url req cid) cid uid nm created updated)).

(** One entry of the [Link] header: [`<${target}>; rel="${rel}"`]. *)
Record LinkEntry : Type := mkLink {
  target : string;
  rel : string
}.

Definition dquote : string := String (ascii_of_nat 34) EmptyString.

Definition render_link (l : LinkEntry) : string :=
  "<" ++ target l ++ ">; rel=" ++ dquote ++ rel l ++ dquote.

(** [links.join(', ')] *)
Definition render_links (links : list LinkEntry) : string :=
  String.concat ", " (map render_link links).

Definition page_url (topMostUrl : string) (pg per : JsNumber) : string :=
  topMostUrl ++ "?page=" ++ string_of_number pg
  ++ "&per_page=" ++ string_of_number per.

(** The body of [if (perPage && page) { ... }] that builds the links. *)
Definition link_entries (req : Request) (total : JsNumber) : list LinkEntry :=
  let topMostUrl := protocol req ++ "://" ++ host req ++ originalUrl req in
  let totalPages := js_ceil_div total (perPage req) in
  (if js_gt (page req) (Num 1)
   then [mkLink (page_url topMostUrl (js_sub (page req) (Num 1)) (perPage req)) "prev"]
   else [])
  ++
  (if js_lt (page req) totalPages
   then [mkLink (page_url topMostUrl (js_add (page req) (Num 1)) (perPage req)) "next"]
   else []).

Definition allowed_sort_keys : list string := ["createdAt"; "name"; "updatedAt"].

Definition string_in (s : string) (l : list string) : bool :=
  existsb (fun x => (x =? s)%string) l.

(** [typeof sortBy !== 'string' || ![...].includes(sortBy)] *)
Definition bad_sort_key (v : JsValue) : bool :=
  negb (typeof v =? "string")%string
  || negb (match v with VStr s => string_in s allowed_sort_keys | _ => false end).

(** The SELECT the list endpoint concatenates. *)
Definition build_chat_query (req : Request) : SelectQuery :=
  let order :=
    if truthy (sortBy req)
    then Some (match sortBy req with
               | VStr s => if (s =? "updatedAt")%string then s ++ " DESC" else s
               | v => to_string v
               end)
    else None in
  let limit :=
    if truthy (VNum (perPage req)) && truthy (VNum (page req))
    then Some (perPage req,
               js_mul (perPage req) (js_sub (page req) (Num 1)))
    else None in
  mkSelect order limit.

(** The callback of [results.map]. *)
Definition with_blob_url (req : Request) (chat : JsValue) : M JsValue :=
  cid <- get_prop chat "chatId" ;;
  uid <- get_prop chat "userId" ;;
  nm <- get_prop chat "name" ;;
  created <- get_prop chat "createdAt" ;;
  updated <- get_prop chat "updatedAt" ;;
  ret (metadata_response (collection_blob_url req cid) cid uid nm created updated).

(** Lines 97 to 151: the two queries of the list endpoint, answering the
    page of chats and the total. *)
Definition list_chats (req : Request) (userID : JsValue) : M (list JsValue * JsNumber) :=
  results <- query_chats (build_chat_query req) userID ;;
  chats <- map_m (with_blob_url req) results ;;
  total <- query_count userID ;;
  ret (chats, total).

Definition getAllChatsController (env : Env) (req : Request) : M unit :=
  let userID := VNum (auth_userId req) in
  when (js_not userID) (respond not_a_valid_token) ;;
  user <- User_findOne userID ;;
  when (js_not user) (respond user_not_found) ;;
  when (js_not (VNum (perPage req)) || js_not (VNum (page req)))
       (respond (json_response 400 (message "Invalid perPage or page"))) ;;
  when (bad_sort_key (sortBy req))
       (respond (json_response 400
                   (message "shortBy Should be name, createdAt or updatedAt"))) ;;
  listed <- list_chats req userID ;;
  let hdrs :=
    if truthy (VNum (perPage req)) && truthy (VNum (page req))
    then [("Link", VStr (render_links (link_entries req (snd listed))))]
    else [] in
  respond (mkResponse 200 hdrs (Json (VArr (fst listed)))).

Definition getChatByIdController (env : Env) (req : Request) : M unit :=
  let userID := VNum (auth_userId req) in
  when (js_not userID) (respond not_a_valid_token) ;;
  user <- User_findOne userID ;;
  when (js_not user) (respond user_not_found) ;;
  let chatId := VNum (chat_id req) in
  chat <- Chat_findOne false chatId userID ;;
  when (js_not chat) (respond chat_not_found) ;;
  c0 <- get_index chat 0 ;; cid <- get_prop c0 "chatId" ;;
  c0 <- get_index chat 0 ;; uid <- get_prop c0 "userId" ;;
  c0 <- get_index chat 0 ;; nm <- get_prop c0 "name" ;;
  c0 <- get_index chat 0 ;; created <- get_prop c0 "createdAt" ;;
  c0 <- get_index chat 0 ;; updated <- get_prop c0 "updatedAt" ;;
  respond (json_response 200
             (metadata_response (item_blob_url req) cid uid nm created updated)).

(** [result[0] != 1] *)
Definition not_one (v : JsValue) : bool :=
  match v with
  | VNum (Num 1) => false
  | _ => true
  end.

Definition patchChatByIdController (env : Env) (req : Request) : M unit :=
  let userID := VNum (auth_userId req) in
  when (js_not userID) (respond not_a_valid_token) ;;
  user <- User_findOne userID ;;
  when (js_not user) (respond user_not_found) ;;
  let chatId := VNum (chat_id req) in
  let name := body_name req in
  result <- Chat_update (now_ms env) name userID chatId ;;
  affected <- get_index result 0 ;;
  when (not_one affected) (respond chat_not_found) ;;
  chat <- Chat_findOne false chatId userID ;;
  cid <- get_prop chat "chatId" ;;
  uid <- get_prop chat "userId" ;;
  nm <- get_prop chat "name" ;;
  created <- get_prop chat "createdAt" ;;
  updated <- get_prop chat "updatedAt" ;;
  respond (json_response 200
             (metadata_response (item_blob_url req) cid uid nm created updated)).

Definition deleteChatByIdController (env : Env) (req : Request) : M unit :=
  let userID := VNum (auth_userId req) in
  when (js_not userID) (respond not_a_valid_token) ;;
  user <- User_findOne userID ;;
  when (js_not user) (respond user_not_found) ;;
  let chatId := VNum (chat_id req) in
  chat <- Chat_findOne true chatId userID ;;
  when (js_not chat) (respond chat_not_found) ;;
  destroy chat ;;
  respond (json_response 200 (message "ok")).

Definition getChatBlobController (env : Env) (req : Request) : M unit :=
  let userID := VNum (auth_userId req) in
  when (js_not userID) (respond not_a_valid_token) ;;
  user <- User_findOne userID ;;
  when (js_not user) (respond user_not_found) ;;
  let chatId := VNum (chat_id req) in
  chat <- Chat_findOne true chatId userID ;;
  when (js_not chat) (respond chat_not_found) ;;
  blob <- get_prop chat "data" ;;
  mime <- get_prop chat "mimeType" ;;
  respond (mkResponse 200 [("Content-Type", mime)] (send_body blob)).

Definition getTokenByIdController (env : Env) (req : Request) : M unit :=
  let userID := VNum (auth_userId req) in
  when (js_not userID) (respond not_a_valid_token) ;;
  user <- User_findOne userID ;;
  when (js_not user) (respond user_not_found) ;;
  let chatId := VNum (chat_id req) in
  has <- hasChat user chatId ;;
  when (js_not has) (respond chat_not_found) ;;
  let payload := VObj [("chatId", chatId)] in
  let expiry := if truthy (expiresIn req) then expiresIn req else VStr "30d" in
  when (negb (typeof expiry =? "string")%string)
       (respond (json_response 400 (message "expiresIn Should be string"))) ;;
  try_catch
    (tok <- sign env payload (to_string expiry) ;;
     respond (mkResponse 200 [("chat-token", tok)] (Json (message "ok"))))
    (fun error => respond (json_response 400 (message "Invalid expiresIn"))).

Definition getChatWithJwtController (env : Env) (req : Request) : M unit :=
  let JwtToken := token req in
  try_catch
    (decoded <- verify env JwtToken ;;
     chatId <- get_prop decoded "chatId" ;;
     chat <- query_chat_by_id chatId ;;
     len <- get_prop chat "length" ;;
     when (js_not len) (respond chat_not_found) ;;
     c0 <- get_index chat 0 ;; cid <- get_prop c0 "chatId" ;;
     c0 <- get_index chat 0 ;; uid <- get_prop c0 "userId" ;;
     c0 <- get_index chat 0 ;; created <- get_prop c0 "createdAt" ;;
     c0 <- get_index chat 0 ;; updated <- get_prop c0 "updatedAt" ;;
     respond (json_response 200
                (VObj [ ("blobUrl", VStr (item_blob_url req));
                        ("chatId", cid);
                        ("userId", uid);
                        ("createdAt", created);
                        ("updatedAt", updated) ])))
    (fun error => respond (json_response 410 (message (error_message error)))).

Definition getBlobWithJwtController (env : Env) (req : Request) : M unit :=
  let JwtToken := token req in
  try_catch
    (decoded <- verify env JwtToken ;;
     pk <- get_prop decoded "chatId" ;;
     chat <- Chat_findByPk pk ;;
     mime <- get_prop chat "mimeType" ;;
     blob <- get_prop chat "data" ;;
     respond (mkResponse 200 [("Content-Type", mime)] (send_body blob)))
    (fun error => respond (json_response 410 (message (error_message error)))).

(** The seven endpoints that resolve the caller to a [userId]. *)
Inductive OwnerEndpoint : Type :=
| Create | ListAll | GetById | Rename | Delete | GetBlob | IssueToken.

Definition owner_handler (e : OwnerEndpoint) : Env -> Request -> M unit :=
  match e with
  | Create => postChatController
  | ListAll => getAllChatsController
  | GetById => getChatByIdController
  | Rename => patchChatByIdController
  | Delete => deleteChatByIdController
  | GetBlob => getChatBlobController
  | IssueToken => getTokenByIdController
  end.

End ChatController.
Import ChatController.

(** ** Sample data *)

Module Sample.

(** A reading of the time spans the examples use. *)
Definition sample_ms (s : string) : option Z :=
  if (s =? "30d")%string then Some 2592000000
  else if (s =? "1h")%string then Some 3600000
  else if (s =? "-1s")%string then Some (-1000)
  else None.

Definition env : Env := mkEnv (Some "secret") 1700000000000 sample_ms.

Definition hello : list Byte.byte := base64_decode "aGVsbG8=".

Definition chat1 : ChatRow := mkChat 1 1 "zeta" "text/plain" hello 100 900.
Definition chat2 : ChatRow := mkChat 2 1 "alpha" "text/plain" hello 200 800.
Definition chat3 : ChatRow := mkChat 3 2 "other" "image/png" [] 300 700.
Definition chat4 : ChatRow := mkChat 4 1 "mid" "text/plain" hello 400 950.

Definition db0 : Db := mkDb [mkUser 1; mkUser 2] [chat1; chat2; chat3; chat4] 5.

Definition world0 : World := mkWorld db0 [].

(** A request of caller [uid] with the given parameters and original URL. *)
Definition request (uid cid per pg : JsNumber) (sort : JsValue) (url : string)
  : Request :=
  mkRequest uid cid VUndefined per pg sort VUndefined
            "data:text/plain;base64,aGVsbG8=" "note"
            "http" "localhost" "/api/chats" "/" url.

Definition owner_request (cid : Z) : Request :=
  request (Num 1) (Num cid) NaN NaN VUndefined ("/api/chats/" ++ string_of_Z cid).

Definition list_request (per pg : Z) (sort : string) : Request :=
  request (Num 1) NaN (Num per) (Num pg) (VStr sort) "/api/chats".

Definition token_request (tok : JsValue) : Request :=
  mkRequest NaN NaN tok NaN NaN VUndefined VUndefined "" ""
            "http" "localhost" "/api/shared" "/" "/api/shared/t".

(** A share token for chat [cid], signed with the key of [env], that expires
    an hour after the clock of [env]. *)
Definition share_token (cid : Z) : JsValue :=
  VToken (VObj [("chatId", VNum (Num cid))]) "secret" (Some 1700003600).

Definition with_body (req : Request) (base64 : string) : Request :=
  mkRequest (auth_userId req) (chat_id req) (token req) (perPage req) (page req)
            (sortBy req) (expiresIn req) base64 (body_name req)
            (protocol req) (host req) (baseUrl req) (path req) (originalUrl req).

End Sample.

(** ** Vocabulary of the statements *)

Module Spec.

Definition user_exists (uid : Z) (d : Db) : bool :=
  existsb (fun u => u_userId u =? uid) (users d).

(** The caller resolved to the id [uid] of a stored user. *)
Definition valid_caller (req : Request) (w : World) (uid : Z) : Prop :=
  auth_userId req = Num uid /\ uid <> 0 /\ user_exists uid (db w) = true.

Definition sort_column (s : string) : Column :=
  if (s =? "name")%string then ColName
  else if (s =? "createdAt")%string then ColCreatedAt
  else ColUpdatedAt.

Definition sort_direction (s : string) : Direction :=
  if (s =? "updatedAt")%string then Desc else Asc.

(** A list request the endpoint accepts: a valid caller, the page size [per]
    and the page number [pg] positive integers, and one of the three sort
    keys. *)
Definition valid_list_request (req : Request) (w : World) (uid per pg : Z)
  (key : string) : Prop :=
  valid_caller req w uid /\
  perPage req = Num per /\ 0 < per /\
  page req = Num pg /\ 0 < pg /\
  sortBy req = VStr key /\ In key allowed_sort_keys.

(** All the chats of [uid], in the order the request asks for. *)
Definition ordered_chats (uid : Z) (key : string) (d : Db) : list ChatRow :=
  sort_rows (order_leb (sort_column key) (sort_direction key))
            (filter (owned_by (VNum (Num uid))) (chats d)).

(** The rows of page [pg] of size [per]. *)
Definition page_rows (uid per pg : Z) (key : string) (d : Db) : list ChatRow :=
  firstn (Z.to_nat per) (skipn (Z.to_nat (per * (pg - 1))) (ordered_chats uid key d)).

(** The metadata object of a row in an owner-scoped response. *)
Definition chat_json (req : Request) (c : ChatRow) : JsValue :=
  metadata_response (collection_blob_url req (VNum (Num (chatId c))))
    (VNum (Num (chatId c))) (VNum (Num (userId c))) (VStr (name c))
    (VNum (Num (createdAt c))) (VNum (Num (updatedAt c))).

(** The metadata object of a row in the token-scoped response. *)
Definition shared_json (req : Request) (c : ChatRow) : JsValue :=
  VObj [ ("blobUrl", VStr (item_blob_url req));
         ("chatId", VNum (Num (chatId c)));
         ("userId", VNum (Num (userId c)));
         ("createdAt", VNum (Num (createdAt c)));
         ("updatedAt", VNum (Num (updatedAt c))) ].

Definition logged (w : World) (ops : list DbOp) : World :=
  mkWorld (db w) (log w ++ ops).

Definition has_rel (r : string) (links : list LinkEntry) : Prop :=
  exists l, In l links /\ rel l = r.

(** The token [tok] verifies in [env] and carries [payload]. *)
Definition verifies (env : Env) (tok payload : JsValue) : Prop :=
  exists key exp,
    tok = VToken payload key exp /\
    JWT_SECRET env = Some key /\
    match exp with
    | Some e => now_seconds env < e
    | None => True
    end.

(** What the owner-scoped handlers do before anything else, as a function of
    the caller id and the [users] table. *)
Inductive Admission : Type :=
| Refused403
| Refused404
| Allowed (uid : Z).

Definition admission (req : Request) (d : Db) : Admission :=
  match auth_userId req with
  | NaN => Refused403
  | Num uid =>
      if uid =? 0 then Refused403
      else if user_exists uid d then Allowed uid else Refused404
  end.



(** A computation only ever appends to the log. *)
Definition appends {A : Type} (m : M A) : Prop :=
  forall w, exists ops, log (snd (m w)) = (log w ++ ops)%list.

End Spec.
Import Spec.

(** ** Invariants of the store and the nine endpoints together *)

Module Invariant.

(** Every stored [chatId] is below the next auto-increment value. *)
Definition fresh_ids (d : Db) : Prop :=
  Forall (fun c => chatId c < nextChatId d) (chats d).

(** [chatId] is a primary key, and the auto-increment value is ahead of it. *)
Definition db_wf (d : Db) : Prop :=
  NoDup (map chatId (chats d)) /\ fresh_ids d.

(** What a handler may do to the store: the [users] table stays as it is,
    the auto-increment value does not go back, and a well-formed store stays
    well formed. *)
Definition store_step (d d' : Db) : Prop :=
  users d' = users d /\
  nextChatId d <= nextChatId d' /\
  (db_wf d -> db_wf d').

(** The store before and after any run of [m] is related by [R]. *)
Definition db_step (R : Db -> Db -> Prop) {A : Type} (m : M A) : Prop :=
  forall w, R (db w) (db (snd (m w))).

Inductive Endpoint : Type :=
| Owner (e : OwnerEndpoint)
| SharedChat
| SharedBlob.

Definition handler (e : Endpoint) : Env -> Request -> M unit :=
  match e with
  | Owner o => owner_handler o
  | SharedChat => getChatWithJwtController
  | SharedBlob => getBlobWithJwtController
  end.

(** The endpoints other than create, rename and delete. *)
Definition read_only (e : Endpoint) : bool :=
  match e with
  | Owner Create | Owner Rename | Owner Delete => false
  | _ => true
  end.

(** The owner-scoped endpoints that address one chat. *)
Definition chat_scoped (e : OwnerEndpoint) : bool :=
  match e with
  | GetById | Rename | Delete | GetBlob => true
  | _ => false
  end.

(** The metadata object of a row in the response of the rename endpoint. *)
Definition item_json (req : Request) (c : ChatRow) : JsValue :=
  metadata_response (item_blob_url req)
    (VNum (Num (chatId c))) (VNum (Num (userId c))) (VStr (name c))
    (VNum (Num (createdAt c))) (VNum (Num (updatedAt c))).

(** The row [c] after a rename to [nm] at the time [now]. *)
Definition renamed (now : Z) (nm : string) (c : ChatRow) : ChatRow :=
  mkChat (chatId c) (userId c) nm (mimeType c) (data c) (createdAt c) now.

(** The columns a rename leaves alone. *)
Definition fixed_columns (c : ChatRow)
  : Z * Z * string * list Byte.byte * Z :=
  (chatId c, userId c, mimeType c, data c, createdAt c).

Definition all_chars (p : ascii -> bool) (s : string) : bool :=
  forallb p (list_ascii_of_string s).

(** [`data:${type}/${subtype};base64,${payload}`] *)
Definition data_uri (type subtype payload : string) : string :=
  "data:" ++ type ++ "/" ++ subtype ++ ";base64," ++ payload.

Definition with_page (req : Request) (pg : Z) : Request :=
  mkRequest (auth_userId req) (chat_id req) (token req) (perPage req) (Num pg)
            (sortBy req) (expiresIn req) (body_base64 req) (body_name req)
            (protocol req) (host req) (baseUrl req) (path req) (originalUrl req).

Definition with_chat_id (req : Request) (cid : Z) : Request :=
  mkRequest (auth_userId req) (Num cid) (token req) (perPage req) (page req)
            (sortBy req) (expiresIn req) (body_base64 req) (body_name req)
            (protocol req) (host req) (baseUrl req) (path req) (originalUrl req).

Definition with_token (req : Request) (tok : JsValue) : Request :=
  mkRequest (auth_userId req) (chat_id req) tok (perPage req) (page req)
            (sortBy req) (expiresIn req) (body_base64 req) (body_name req)
            (protocol req) (host req) (baseUrl req) (path req) (originalUrl req).

(** The items of a JSON array response; nothing for any other outcome. *)
Definition response_items (s : Step unit) : list JsValue :=
  match s with
  | Sent r =>
      match body r with
      | Json (VArr items) => items
      | _ => []
      end
  | _ => []
  end.

(** The pages [1] to [k] of a list request, one after the other. *)
Definition pages (env : Env) (req : Request) (w : World) (k : nat)
  : list JsValue :=
  List.concat (map (fun i => response_items
                          (fst (getAllChatsController env
                                  (with_page req (Z.of_nat i + 1)) w)))
              (seq 0 k)).

(** The life time in seconds that [jwt.sign] gives a token for the
    [expiresIn] parameter of the request, when it can read it. *)
Definition life_time (env : Env) (req : Request) : option Z :=
  if truthy (expiresIn req) then
    match expiresIn req with
    | VStr s => option_map (fun span => span / 1000) (ms env s)
    | _ => None
    end
  else option_map (fun span => span / 1000) (ms env "30d").

(** The token the share endpoint issues for [chatId] with a life time of
    [secs] seconds. *)
Definition issued_token (env : Env) (key : string) (cid : JsNumber) (secs : Z)
  : JsValue :=
  VToken (VObj [("chatId", json_number cid)]) key (Some (now_seconds env + secs)).

End Invariant.
Import Invariant.

(** ** The dashboard of the web client

    The paging handlers of [apps/web/src/pages/Dashboard.tsx]: the page
    number is React state that starts at 1, and [link] is the [Link] header
    of the last list response, when there is one. *)

Module Dashboard.

Fixpoint starts_with (s sub : string) {struct sub} : bool :=
  match sub with
  | EmptyString => true
  | String b sub' =>
      match s with
      | EmptyString => false
      | String a s' => (a =? b)%char && starts_with s' sub'
      end
  end.

(** [s.includes(sub)] *)
Fixpoint includes (s sub : string) : bool :=
  starts_with s sub
  || match s with
     | EmptyString => false
     | String _ s' => includes s' sub
     end.

(** [link?.includes("next")], falsy when there is no header. *)
Definition link_includes_next (link : option string) : bool :=
  match link with
  | Some l => includes l "next"
  | None => false
  end.

(** [setPageNumber(Math.max(pageNumber - 1, 0))] *)
Definition onPrevChat (pageNumber : Z) : Z := Z.max (pageNumber - 1) 0.

(** [if (!isPrevData && link?.includes("next")) setPageNumber(pageNumber + 1)] *)
Definition onNextChat (isPrevData : bool) (link : option string)
  (pageNumber : Z) : Z :=
  if negb isPrevData && link_includes_next link then pageNumber + 1
  else pageNumber.

(** [hasNext={!isPrevData && link?.includes("next") || false}] *)
Definition hasNext (isPrevData : bool) (link : option string) : bool :=
  negb isPrevData && link_includes_next link || false.

(** [hasPrev={pageNumber > 1}] *)
Definition hasPrev (pageNumber : Z) : bool := 1 <? pageNumber.

Inductive Click : Type :=
| ClickPrev
| ClickNext (isPrevData : bool) (link : option string).

Definition click (pageNumber : Z) (c : Click) : Z :=
  match c with
  | ClickPrev => onPrevChat pageNumber
  | ClickNext isPrevData link => onNextChat isPrevData link pageNumber
  end.

(** The page number after a sequence of clicks, from the initial state. *)
Definition page_after (clicks : list Click) : Z := fold_left click clicks 1.

End Dashboard.

(** * Properties *)

Local Open Scope list_scope.

(** ** The monad and the log *)

Lemma appends_ret {A : Type} (a : A) : appends (ret a).
Proof. intros w. exists []. simpl. now rewrite app_nil_r. Qed.

Lemma appends_respond {A : Type} (r : Response) : appends (@respond A r).
Proof. intros w. exists []. simpl. now rewrite app_nil_r. Qed.

Lemma appends_throw {A : Type} (e : JsError) : appends (@throw A e).
Proof. intros w. exists []. simpl. now rewrite app_nil_r. Qed.

Lemma appends_perform (op : DbOp) : appends (perform op).
Proof. intros w. now exists [op]. Qed.

Lemma appends_get_db : appends get_db.
Proof. intros w. exists []. simpl. now rewrite app_nil_r. Qed.

Lemma appends_put_db (d : Db) : appends (put_db d).
Proof. intros w. exists []. simpl. now rewrite app_nil_r. Qed.

Lemma appends_bind {A B : Type} (m : M A) (k : A -> M B) :
  appends m -> (forall a, appends (k a)) -> appends (x <- m ;; k x).
Proof.
  intros Hm Hk w. unfold bind. destruct (Hm w) as [ops Hops].
  destruct (m w) as [[a | r | e] w']; simpl in *.
  - destruct (Hk a w') as [ops' Hops']. exists (ops ++ ops').
    now rewrite Hops', Hops, app_assoc.
  - now exists ops.
  - now exists ops.
Qed.

Lemma appends_try_catch {A : Type} (m : M A) (h : JsError -> M A) :
  appends m -> (forall e, appends (h e)) -> appends (try_catch m h).
Proof.
  intros Hm Hh w. unfold try_catch. destruct (Hm w) as [ops Hops].
  destruct (m w) as [[a | r | e] w']; simpl in *.
  - now exists ops.
  - now exists ops.
  - destruct (Hh e w') as [ops' Hops']. exists (ops ++ ops').
    now rewrite Hops', Hops, app_assoc.
Qed.

Lemma appends_when (c : bool) (m : M unit) : appends m -> appends (when c m).
Proof. intros Hm. destruct c; [exact Hm | apply appends_ret]. Qed.

Lemma appends_lift (r : JsError + JsValue) : appends (lift r).
Proof. destruct r; [apply appends_throw | apply appends_ret]. Qed.

Lemma appends_map_m {A B : Type} (f : A -> M B) (l : list A) :
  (forall a, appends (f a)) -> appends (map_m f l).
Proof.
  intros Hf. induction l as [|x l IH]; simpl.
  - apply appends_ret.
  - apply appends_bind; [apply Hf | intros y].
    apply appends_bind; [exact IH | intros ys]. apply appends_ret.
Qed.

(** Decomposes a computation into the primitives above. *)
Ltac appends_step :=
  match goal with
  | |- appends (bind _ _) => apply appends_bind; [| intro]
  | |- appends (try_catch _ _) => apply appends_try_catch; [| intro]
  | |- appends (when _ _) => apply appends_when
  | |- appends (map_m _ _) => apply appends_map_m; intro
  | |- appends (ret _) => apply appends_ret
  | |- appends (respond _) => apply appends_respond
  | |- appends (throw _) => apply appends_throw
  | |- appends (perform _) => apply appends_perform
  | |- appends get_db => apply appends_get_db
  | |- appends (put_db _) => apply appends_put_db
  | |- appends (lift _) => apply appends_lift
  | |- appends (get_prop _ _) => apply appends_lift
  | |- appends (get_index _ _) => apply appends_lift
  | |- appends (match ?x with _ => _ end) => destruct x
  | |- appends (let _ := _ in _) => cbv zeta
  end.

Ltac appends_auto := repeat appends_step.


(** ** The two checks every owner-scoped handler starts with *)

Lemma find_user (uid : Z) (d : Db) :
  find (fun u => sql_eq (VNum (Num uid)) (u_userId u)) (users d)
  = if user_exists uid d then Some (mkUser uid) else None.
Proof.
  unfold user_exists. induction (users d) as [|u us IH]; simpl; [reflexivity|].
  destruct u as [k]; simpl. rewrite (Z.eqb_sym k uid).
  destruct (uid =? k) eqn:E; simpl.
  - apply Z.eqb_eq in E. now subst.
  - exact IH.
Qed.

Lemma User_findOne_run (uid : Z) (w : World) :
  User_findOne (VNum (Num uid)) w
  = (Next (if user_exists uid (db w) then user_instance (mkUser uid) else VNull),
     logged w [UserFindOne (VNum (Num uid))]).
Proof.
  cbv [User_findOne bind perform get_db ret logged]. cbn [db log].
  rewrite find_user. now destruct (user_exists uid (db w)).
Qed.

(** The shared prefix of the seven handlers, whatever follows it. *)
Lemma owner_prefix (req : Request) (k : JsValue -> M unit) (w : World) :
  (when (js_not (VNum (auth_userId req))) (respond not_a_valid_token) ;;
   user <- User_findOne (VNum (auth_userId req)) ;;
   when (js_not user) (respond user_not_found) ;;
   k user) w
  = match admission req (db w) with
    | Refused403 => (Sent not_a_valid_token, w)
    | Refused404 =>
        (Sent user_not_found, logged w [UserFindOne (VNum (auth_userId req))])
    | Allowed uid =>
        k (user_instance (mkUser uid)) (logged w [UserFindOne (VNum (Num uid))])
    end.
Proof.
  unfold admission. destruct (auth_userId req) as [|uid]; [reflexivity|].
  unfold bind at 1. unfold js_not at 1, truthy.
  destruct (uid =? 0); [reflexivity|]. cbn [negb when ret].
  unfold bind at 1. rewrite User_findOne_run.
  destruct (user_exists uid (db w)); reflexivity.
Qed.

Lemma valid_caller_admission (req : Request) (w : World) (uid : Z) :
  valid_caller req w uid -> admission req (db w) = Allowed uid.
Proof.
  intros (Ha & Hz & Hu). unfold admission. rewrite Ha, Hu.
  apply Z.eqb_neq in Hz. now rewrite Hz.
Qed.

Ltac unfold_handlers :=
  cbv [owner_handler postChatController getAllChatsController
       getChatByIdController patchChatByIdController deleteChatByIdController
       getChatBlobController getTokenByIdController].

Ltac unfold_store_calls :=
  cbv [list_chats with_blob_url match_zero Buffer_from_base64 User_findOne
       createChat hasChat query_chats query_count Chat_findOne Chat_update
       destroy query_chat_by_id Chat_findByPk sign verify].

Lemma appends_owner_handler (e : OwnerEndpoint) (env : Env) (req : Request) :
  appends (owner_handler e env req).
Proof. destruct e; unfold_handlers; unfold_store_calls; appends_auto. Qed.

(** C7.  Each of the seven owner-scoped handlers (create, list, get by id,
    rename, delete, get blob, issue token) first tests the resolved caller
    id: when it is NaN or zero the handler answers 403 "Not a valid token"
    and has touched nothing.  Otherwise it looks the user up, and when there
    is no such user it answers 404 "User not found" with that lookup as the
    only datastore operation and the store unchanged.  When the user exists,
    the user lookup is the first operation in the log of the run, so every
    resource lookup or mutation comes after both checks. *)
Theorem owner_endpoints_check_caller_first
  (e : OwnerEndpoint) (env : Env) (req : Request) (w : World) :
  match admission req (db w) with
  | Refused403 => owner_handler e env req w = (Sent not_a_valid_token, w)
  | Refused404 =>
      owner_handler e env req w
      = (Sent user_not_found, logged w [UserFindOne (VNum (auth_userId req))])
  | Allowed uid =>
      exists ops,
        log (snd (owner_handler e env req w))
        = log w ++ UserFindOne (VNum (Num uid)) :: ops
  end.
Proof.
  destruct e; unfold_handlers; cbv zeta; rewrite owner_prefix;
    (destruct (admission req (db w)) as [| | uid]; [reflexivity | reflexivity |]);
    match goal with
    | |- exists ops, log (snd (?m ?w1)) = _ =>
        let H := fresh "H" in
        assert (H : appends m) by (unfold_store_calls; appends_auto);
        destruct (H w1) as [ops Hops]; exists ops; rewrite Hops;
        cbn [logged log]; now rewrite <- app_assoc
    end.
Qed.

(** ** Issuing a share token *)

Lemma hasChat_run (uid : Z) (cid : JsValue) (w : World) :
  hasChat (user_instance (mkUser uid)) cid w
  = (Next (VPromise (VBool (existsb (chat_matches cid (VNum (Num uid)))
                                    (chats (db w))))),
     logged w [UserHasChat (VNum (Num uid)) cid]).
Proof. reflexivity. Qed.

(** What the handler does once the caller is known: the promise that
    [hasChat] answers is truthy whatever it resolves to, so the run goes on
    to the expiry and the signature. *)
Lemma getToken_run (env : Env) (req : Request) (w : World) (uid : Z) :
  valid_caller req w uid ->
  getTokenByIdController env req w
  = (let expiry := if truthy (expiresIn req) then expiresIn req else VStr "30d" in
     when (negb (typeof expiry =? "string")%string)
          (respond (json_response 400 (message "expiresIn Should be string"))) ;;
     try_catch
       (tok <- sign env (VObj [("chatId", VNum (chat_id req))]) (to_string expiry) ;;
        respond (mkResponse 200 [("chat-token", tok)] (Json (message "ok"))))
       (fun _ => respond (json_response 400 (message "Invalid expiresIn"))))
      (logged w [UserFindOne (VNum (Num uid));
                 UserHasChat (VNum (Num uid)) (VNum (chat_id req))]).
Proof.
  intros Hc. unfold getTokenByIdController. cbv zeta. rewrite owner_prefix.
  rewrite (valid_caller_admission _ _ _ Hc).
  unfold bind at 1. rewrite hasChat_run. cbn [js_not truthy negb when].
  unfold bind at 1. cbn [ret]. unfold logged. cbn [db log].
  now rewrite <- app_assoc.
Qed.

(** No run of the handler for a known caller answers "Chat not found",
    whether the chat exists or not. *)
Lemma getToken_never_chat_not_found (env : Env) (req : Request) (w : World) (uid : Z) :
  valid_caller req w uid ->
  fst (getTokenByIdController env req w) <> Sent chat_not_found.
Proof.
  intros Hc. rewrite (getToken_run _ _ _ _ Hc). cbv zeta.
  unfold bind at 1, when.
  destruct (negb _); [discriminate|]. cbn [ret].
  unfold try_catch, bind, sign.
  destruct (JWT_SECRET env) as [key|]; [|discriminate].
  destruct (key =? "")%string; [discriminate|].
  destruct (ms env _); discriminate.
Qed.

(** C1 (the code departs from the claim).  User 1 exists and no chat has the
    id 99, yet the token endpoint answers 200 and issues a token for chat 99:
    [user.hasChat(chatId)] is not awaited, and the promise it returns is
    truthy. *)
Theorem token_issued_for_missing_chat :
  existsb (chat_matches (VNum (Num 99)) (VNum (Num 1))) (chats Sample.db0) = false /\
  getTokenByIdController Sample.env (Sample.owner_request 99) Sample.world0
  = (Sent (mkResponse 200
             [("chat-token",
               VToken (VObj [("chatId", VNum (Num 99))]) "secret" (Some 1702592000))]
             (Json (message "ok"))),
     logged Sample.world0 [UserFindOne (VNum (Num 1));
                           UserHasChat (VNum (Num 1)) (VNum (Num 99))]).
Proof. split; reflexivity. Qed.

(** ** Get by id *)

Lemma Chat_findOne_run (with_data : bool) (cid uid : JsValue) (w : World) :
  Chat_findOne with_data cid uid w
  = (if where_rejected cid || where_rejected uid
     then Thrown nan_in_where
     else Next (nullable (option_map
                  (if with_data then chat_instance else chat_instance_without_data)
                  (find (chat_matches cid uid) (chats (db w))))),
     logged w [ChatFindOne cid uid]).
Proof.
  unfold Chat_findOne, bind, perform.
  now destruct (where_rejected cid || where_rejected uid).
Qed.

(** A row matches only a numeric id. *)
Lemma chat_matches_number (n : JsNumber) (uid : JsValue) (c : ChatRow) :
  chat_matches (VNum n) uid c = true -> n = Num (chatId c).
Proof.
  unfold chat_matches. intros H. apply andb_prop in H. destruct H as [H _].
  destruct n as [|k]; simpl in H; [discriminate|].
  apply Z.eqb_eq in H. now subst.
Qed.

Lemma getChatById_run (env : Env) (req : Request) (w : World) (uid : Z) :
  valid_caller req w uid ->
  getChatByIdController env req w
  = (match chat_id req with
     | NaN => Thrown nan_in_where
     | Num _ =>
         match find (chat_matches (VNum (chat_id req)) (VNum (Num uid)))
                    (chats (db w)) with
         | Some _ => Thrown (cannot_read "undefined" "chatId")
         | None => Sent chat_not_found
         end
     end,
     logged w [UserFindOne (VNum (Num uid));
               ChatFindOne (VNum (chat_id req)) (VNum (Num uid))]).
Proof.
  intros Hc. unfold getChatByIdController. cbv zeta. rewrite owner_prefix.
  rewrite (valid_caller_admission _ _ _ Hc). destruct Hc as (-> & _).
  unfold bind at 1. rewrite Chat_findOne_run.
  unfold logged. cbn [db log]. rewrite <- app_assoc. cbn [app].
  destruct (chat_id req) as [|cid]; [reflexivity|]. cbn [where_rejected orb].
  destruct (find _ _) as [c|]; reflexivity.
Qed.

(** C2 (the code departs from the claim).  Chat 1 exists and belongs to
    user 1, and the get-by-id endpoint throws instead of answering 200: the
    instance that [findOne] answers is indexed with [0], which is
    [undefined], and [undefined.chatId] is a TypeError. *)
Theorem get_by_id_throws_for_owned_chat :
  find (chat_matches (VNum (Num 1)) (VNum (Num 1))) (chats Sample.db0)
  = Some Sample.chat1 /\
  getChatByIdController Sample.env (Sample.owner_request 1) Sample.world0
  = (Thrown (TypeError "Cannot read properties of undefined (reading 'chatId')"),
     logged Sample.world0 [UserFindOne (VNum (Num 1));
                           ChatFindOne (VNum (Num 1)) (VNum (Num 1))]).
Proof. split; reflexivity. Qed.

(** ** Create *)

(** C3, as amended.  For a create request of a valid caller whose body
    string has no match for the MIME pattern, [match] answers [null] and
    reading its element [0] throws a TypeError: the handler sends no response
    (so no 400), it has only looked the user up, and no chat is stored. *)
Theorem create_without_mime_throws
  (env : Env) (req : Request) (w : World) (uid : Z) :
  valid_caller req w uid ->
  string_match (body_base64 req) = None ->
  postChatController env req w
  = (Thrown (TypeError "Cannot read properties of null (reading '0')"),
     logged w [UserFindOne (VNum (Num uid))]).
Proof.
  intros Hc Hm. unfold postChatController. cbv zeta. rewrite owner_prefix.
  rewrite (valid_caller_admission _ _ _ Hc). rewrite Hm. reflexivity.
Qed.

Lemma create_without_mime_throws_witness :
  valid_caller (Sample.with_body (Sample.owner_request 0) "hello") Sample.world0 1 /\
  string_match "hello" = None /\
  postChatController Sample.env (Sample.with_body (Sample.owner_request 0) "hello")
    Sample.world0
  = (Thrown (TypeError "Cannot read properties of null (reading '0')"),
     logged Sample.world0 [UserFindOne (VNum (Num 1))]).
Proof.
  assert (Hc : valid_caller (Sample.with_body (Sample.owner_request 0) "hello")
                 Sample.world0 1)
    by (repeat split; first [reflexivity | discriminate]).
  split; [exact Hc | split; [reflexivity |]].
  apply (create_without_mime_throws Sample.env _ Sample.world0 1 Hc).
  reflexivity.
Defined.

(** C3 as stated fails: the body "hello" of a valid caller has no MIME
    segment, and the handler sends no response at all, so none with the
    status 400. *)
Lemma create_without_mime_is_not_400 :
  valid_caller (Sample.with_body (Sample.owner_request 0) "hello") Sample.world0 1 /\
  string_match "hello" = None /\
  ~ (exists r,
        fst (postChatController Sample.env
               (Sample.with_body (Sample.owner_request 0) "hello") Sample.world0)
        = Sent r /\ status r = 400).
Proof.
  split; [repeat split; first [reflexivity | discriminate] |].
  split; [reflexivity |].
  intros (r & Hr & _). discriminate Hr.
Qed.

(** ** The token-scoped endpoints *)

Lemma verify_run (env : Env) (tok payload : JsValue) (w : World) :
  verifies env tok payload -> verify env tok w = (Next payload, w).
Proof.
  intros (key & exp & -> & Hs & He). unfold verify. rewrite Hs, String.eqb_refl.
  destruct exp as [e|]; [|reflexivity].
  apply Z.leb_gt in He. now rewrite He.
Qed.

(** Verification either answers the payload of a token that verifies, or
    throws; it touches neither the store nor the log. *)
Lemma verify_cases (env : Env) (tok : JsValue) (w : World) :
  (exists payload, verifies env tok payload /\ verify env tok w = (Next payload, w))
  \/ (exists e, verify env tok w = (Thrown e, w)).
Proof.
  destruct tok as [| | b | n | s | payload key exp | bs | fs | items | v];
    try (right; eexists; reflexivity).
  unfold verify. destruct (JWT_SECRET env) as [secret|] eqn:Hs;
    [| right; eexists; reflexivity].
  destruct (key =? secret)%string eqn:Hk; [| right; eexists; reflexivity].
  apply String.eqb_eq in Hk. subst secret.
  destruct exp as [e|].
  - destruct (e <=? now_seconds env) eqn:He; [right; eexists; reflexivity|].
    left. exists payload. split; [|reflexivity].
    exists key, (Some e). apply Z.leb_gt in He. now repeat split.
  - left. exists payload. split; [|reflexivity].
    exists key, None. now repeat split.
Qed.

Lemma Chat_findByPk_run (pk : JsValue) (w : World) :
  Chat_findByPk pk w
  = (Next (nullable (option_map chat_instance
                       (find (fun c => sql_eq pk (chatId c)) (chats (db w))))),
     logged w [ChatFindByPk pk]).
Proof. reflexivity. Qed.



Lemma query_chat_by_id_run (pk : JsValue) (w : World) :
  pk <> VUndefined -> pk <> VNum NaN ->
  query_chat_by_id pk w
  = (Next (VArr (map chat_row_without_name
                   (filter (fun c => sql_eq pk (chatId c)) (chats (db w))))),
     logged w [SelectChatById pk]).
Proof.
  intros Hpk Hn. destruct pk as [| | |n| | | | | |]; try reflexivity.
  - now destruct Hpk.
  - destruct n; [now destruct Hn | reflexivity].
Qed.

Lemma getChatWithJwt_verified
  (env : Env) (req : Request) (w : World) (payload pk : JsValue) :
  verifies env (token req) payload ->
  read_prop payload "chatId" = inr pk ->
  pk <> VUndefined -> pk <> VNum NaN ->
  getChatWithJwtController env req w
  = (match filter (fun c => sql_eq pk (chatId c)) (chats (db w)) with
     | [] => Sent chat_not_found
     | c :: _ => Sent (json_response 200 (shared_json req c))
     end,
     logged w [SelectChatById pk]).
Proof.
  intros Hv Hp Hpk Hn. unfold getChatWithJwtController. cbv zeta.
  unfold try_catch. unfold bind at 1. rewrite (verify_run _ _ _ _ Hv).
  unfold bind at 1, get_prop. rewrite Hp. cbn [lift ret].
  unfold bind at 1. rewrite (query_chat_by_id_run _ _ Hpk Hn).
  destruct (filter _ _) as [|c rest]; reflexivity.
Qed.



Lemma getChatWithJwt_rejected (env : Env) (req : Request) (w : World) (e : JsError) :
  verify env (token req) w = (Thrown e, w) ->
  getChatWithJwtController env req w
  = (Sent (json_response 410 (message (error_message e))), w).
Proof.
  intros Hv. unfold getChatWithJwtController. cbv zeta.
  unfold try_catch. unfold bind at 1. now rewrite Hv.
Qed.


Lemma sql_eq_number (n : JsNumber) (z : Z) :
  sql_eq (VNum n) z = true -> n = Num z.
Proof.
  destruct n as [|k]; simpl; [discriminate|].
  intros H. apply Z.eqb_eq in H. now subst.
Qed.


(** A delete that answers 200 has removed every row with the requested id. *)
Lemma delete_success (env : Env) (req : Request) (w w1 : World) :
  deleteChatByIdController env req w = (Sent (json_response 200 (message "ok")), w1) ->
  chats (db w1)
  = filter (fun c => negb (sql_eq (VNum (chat_id req)) (chatId c))) (chats (db w)).
Proof.
  unfold deleteChatByIdController. cbv zeta. rewrite owner_prefix.
  destruct (admission req (db w)) as [| | uid]; [discriminate | discriminate |].
  unfold bind at 1. rewrite Chat_findOne_run.
  destruct (where_rejected _ || where_rejected _); [discriminate|].
  destruct (find _ _) as [c|] eqn:Hf; [|discriminate].
  apply find_some in Hf. destruct Hf as [_ Hm].
  apply andb_prop in Hm. destruct Hm as [Hm _].
  apply sql_eq_number in Hm. rewrite Hm.
  intros H. injection H as <-. reflexivity.
Qed.

(** A delete answers 200 only for a numeric chat id. *)
Lemma delete_success_id (env : Env) (req : Request) (w w1 : World) :
  deleteChatByIdController env req w = (Sent (json_response 200 (message "ok")), w1) ->
  exists cid, chat_id req = Num cid.
Proof.
  unfold deleteChatByIdController. cbv zeta. rewrite owner_prefix.
  destruct (admission req (db w)) as [| | uid]; [discriminate | discriminate |].
  unfold bind at 1. rewrite Chat_findOne_run.
  destruct (chat_id req) as [|cid]; [discriminate|]. now exists cid.
Qed.




(** ** Which responses carry the name *)

Lemma shared_json_has_no_name (req : Request) (c : ChatRow) :
  has_field "name" (shared_json req c) = false.
Proof. reflexivity. Qed.

Lemma chat_json_has_name (req : Request) (c : ChatRow) :
  read_prop (chat_json req c) "name" = inr (VStr (name c)).
Proof. reflexivity. Qed.

(** C8 (the code departs from the claim, by the defect of C2).  For chat 1 of
    user 1: the token-scoped response is the four columns and the blob URL,
    without the name; each item of the owner's list carries its name; the
    owner's get-by-id sends no metadata at all, it throws. *)
Theorem name_sent_to_owner_except_by_id :
  fst (getChatWithJwtController Sample.env
         (Sample.token_request (Sample.share_token 1)) Sample.world0)
  = Sent (json_response 200 (shared_json (Sample.token_request (Sample.share_token 1))
                               Sample.chat1)) /\
  has_field "name" (shared_json (Sample.token_request (Sample.share_token 1))
                      Sample.chat1) = false /\
  (exists hdrs,
      fst (getAllChatsController Sample.env (Sample.list_request 5 1 "createdAt")
             Sample.world0)
      = Sent (mkResponse 200 hdrs
                (Json (VArr (map (chat_json (Sample.list_request 5 1 "createdAt"))
                               [Sample.chat1; Sample.chat2; Sample.chat4])))) /\
      forallb (has_field "name")
              (map (chat_json (Sample.list_request 5 1 "createdAt"))
                 [Sample.chat1; Sample.chat2; Sample.chat4]) = true) /\
  fst (getChatByIdController Sample.env (Sample.owner_request 1) Sample.world0)
  = Thrown (TypeError "Cannot read properties of undefined (reading 'chatId')").
Proof.
  split; [reflexivity |]. split; [reflexivity |].
  split; [eexists; split; reflexivity | reflexivity].
Qed.

(** ** ORDER BY: the insertion sort *)

Section InsertionSort.

Variable leb : ChatRow -> ChatRow -> bool.
Hypothesis leb_total : forall a b, leb a b = true \/ leb b a = true.
Hypothesis leb_trans :
  forall a b c, leb a b = true -> leb b c = true -> leb a c = true.

Lemma insert_row_perm (x : ChatRow) (l : list ChatRow) :
  Permutation (insert_row leb x l) (x :: l).
Proof.
  induction l as [|y l IH]; simpl; [apply Permutation_refl|].
  destruct (leb x y); [apply Permutation_refl|].
  apply perm_trans with (y :: x :: l); [now apply perm_skip | apply perm_swap].
Qed.

Lemma sort_rows_perm (l : list ChatRow) : Permutation (sort_rows leb l) l.
Proof.
  induction l as [|x l IH]; simpl; [apply perm_nil|].
  apply perm_trans with (x :: sort_rows leb l);
    [apply insert_row_perm | now apply perm_skip].
Qed.

Lemma insert_row_sorted (x : ChatRow) (l : list ChatRow) :
  StronglySorted (fun a b => leb a b = true) l ->
  StronglySorted (fun a b => leb a b = true) (insert_row leb x l).
Proof.
  induction l as [|y l IH]; intros Hs; simpl.
  - constructor; constructor.
  - apply StronglySorted_inv in Hs. destruct Hs as [Hl Hy].
    destruct (leb x y) eqn:E.
    + constructor; [now constructor|].
      constructor; [exact E|].
      eapply Forall_impl; [|exact Hy]. intros z Hz. now apply leb_trans with y.
    + constructor; [now apply IH|].
      apply (Permutation_Forall (Permutation_sym (insert_row_perm x l))).
      constructor; [|exact Hy].
      destruct (leb_total x y) as [H | H]; [congruence | exact H].
Qed.

Lemma sort_rows_sorted (l : list ChatRow) :
  StronglySorted (fun a b => leb a b = true) (sort_rows leb l).
Proof.
  induction l as [|x l IH]; simpl; [constructor | now apply insert_row_sorted].
Qed.

End InsertionSort.

Lemma StronglySorted_skipn {A : Type} (R : A -> A -> Prop) (n : nat) (l : list A) :
  StronglySorted R l -> StronglySorted R (skipn n l).
Proof.
  revert l. induction n as [|n IH]; intros l Hs; [exact Hs|].
  destruct l as [|x l]; [exact Hs|]. simpl.
  apply IH. now apply StronglySorted_inv in Hs.
Qed.

Lemma Forall_firstn {A : Type} (P : A -> Prop) (n : nat) (l : list A) :
  Forall P l -> Forall P (firstn n l).
Proof.
  revert l. induction n as [|n IH]; intros l Hl; [constructor|].
  destruct l as [|x l]; [constructor|]. simpl.
  apply Forall_cons_iff in Hl. destruct Hl as [Hx Hl].
  constructor; [exact Hx | now apply IH].
Qed.

Lemma StronglySorted_firstn {A : Type} (R : A -> A -> Prop) (n : nat) (l : list A) :
  StronglySorted R l -> StronglySorted R (firstn n l).
Proof.
  revert l. induction n as [|n IH]; intros l Hs; [constructor|].
  destruct l as [|x l]; [constructor|]. simpl.
  apply StronglySorted_inv in Hs. destruct Hs as [Hl Hx].
  constructor; [now apply IH | now apply Forall_firstn].
Qed.

(** *** The three keys *)

Lemma string_compare_trans (s1 s2 s3 : string) :
  String.compare s1 s2 <> Gt -> String.compare s2 s3 <> Gt ->
  String.compare s1 s3 <> Gt.
Proof.
  revert s2 s3. induction s1 as [|a s1 IH]; intros [|b s2] [|c s3]; simpl;
    try congruence.
  unfold Ascii.compare.
  destruct (N.compare_spec (N_of_ascii a) (N_of_ascii b)) as [Hab | Hab | Hab];
    destruct (N.compare_spec (N_of_ascii b) (N_of_ascii c)) as [Hbc | Hbc | Hbc];
    try congruence.
  - rewrite Hab, Hbc, N.compare_refl. apply IH.
  - intros _ _. rewrite Hab. apply N.compare_lt_iff in Hbc. now rewrite Hbc.
  - intros _ _. rewrite <- Hbc. apply N.compare_lt_iff in Hab. now rewrite Hab.
  - intros _ _. assert (H : (N_of_ascii a < N_of_ascii c)%N)
      by (now apply N.lt_trans with (N_of_ascii b)).
    apply N.compare_lt_iff in H. now rewrite H.
Qed.

Lemma string_leb_trans (s1 s2 s3 : string) :
  String.leb s1 s2 = true -> String.leb s2 s3 = true -> String.leb s1 s3 = true.
Proof.
  unfold String.leb. intros H12 H23.
  assert (H : String.compare s1 s3 <> Gt).
  { apply string_compare_trans with s2.
    - destruct (String.compare s1 s2); congruence.
    - destruct (String.compare s2 s3); congruence. }
  destruct (String.compare s1 s3); congruence.
Qed.

Lemma column_leb_total (col : Column) (a b : ChatRow) :
  column_leb col a b = true \/ column_leb col b a = true.
Proof.
  destruct col; simpl; [apply String.leb_total | |];
    rewrite !Z.leb_le; lia.
Qed.

Lemma column_leb_trans (col : Column) (a b c : ChatRow) :
  column_leb col a b = true -> column_leb col b c = true ->
  column_leb col a c = true.
Proof.
  destruct col; simpl; [apply string_leb_trans | |];
    rewrite !Z.leb_le; lia.
Qed.

Lemma order_leb_total (col : Column) (dir : Direction) (a b : ChatRow) :
  order_leb col dir a b = true \/ order_leb col dir b a = true.
Proof. destruct dir; simpl; apply column_leb_total. Qed.

Lemma order_leb_trans (col : Column) (dir : Direction) (a b c : ChatRow) :
  order_leb col dir a b = true -> order_leb col dir b c = true ->
  order_leb col dir a c = true.
Proof.
  destruct dir; simpl; intros H1 H2.
  - now apply column_leb_trans with b.
  - now apply column_leb_trans with b.
Qed.

Lemma ordered_chats_sorted (uid : Z) (key : string) (d : Db) :
  StronglySorted
    (fun a b => order_leb (sort_column key) (sort_direction key) a b = true)
    (ordered_chats uid key d).
Proof.
  apply sort_rows_sorted; [apply order_leb_total | apply order_leb_trans].
Qed.

Lemma ordered_chats_perm (uid : Z) (key : string) (d : Db) :
  Permutation (ordered_chats uid key d)
              (filter (owned_by (VNum (Num uid))) (chats d)).
Proof. apply sort_rows_perm. Qed.

Lemma page_rows_sorted (uid per pg : Z) (key : string) (d : Db) :
  StronglySorted
    (fun a b => order_leb (sort_column key) (sort_direction key) a b = true)
    (page_rows uid per pg key d).
Proof.
  apply StronglySorted_firstn, StronglySorted_skipn, ordered_chats_sorted.
Qed.

(** ** The list endpoint *)

Lemma map_m_with_blob_url (req : Request) (rows : list ChatRow) (w : World) :
  map_m (with_blob_url req) (map (fun c => VObj (chat_metadata c)) rows) w
  = (Next (map (chat_json req) rows), w).
Proof.
  induction rows as [|c rows IH]; [reflexivity|].
  cbn [map map_m]. unfold bind at 1.
  change (with_blob_url req (VObj (chat_metadata c)) w)
    with (@Next JsValue (chat_json req c), w).
  unfold bind at 1. rewrite IH. reflexivity.
Qed.

Lemma allowed_sort_key_cases (key : string) :
  In key allowed_sort_keys ->
  key = "createdAt" \/ key = "name" \/ key = "updatedAt".
Proof. simpl. intuition. Qed.

Lemma build_chat_query_valid (req : Request) (per pg : Z) (key : string) :
  perPage req = Num per -> 0 < per ->
  page req = Num pg -> 0 < pg ->
  sortBy req = VStr key -> In key allowed_sort_keys ->
  exists term,
    build_chat_query req = mkSelect (Some term) (Some (Num per, Num (per * (pg - 1)))) /\
    parse_order_term term = Some (sort_column key, sort_direction key).
Proof.
  intros Hper Hp Hpg Hg Hs Hk. unfold build_chat_query.
  rewrite Hper, Hpg, Hs. cbn [truthy js_sub js_mul].
  assert (E1 : (per =? 0) = false) by (apply Z.eqb_neq; lia).
  assert (E2 : (pg =? 0) = false) by (apply Z.eqb_neq; lia).
  rewrite E1, E2. cbn [negb andb].
  destruct (allowed_sort_key_cases key Hk) as [-> | [-> | ->]];
    eexists; split; reflexivity.
Qed.

Lemma run_select_valid (req : Request) (uid per pg : Z) (key : string) (d : Db) :
  perPage req = Num per -> 0 < per ->
  page req = Num pg -> 0 < pg ->
  sortBy req = VStr key -> In key allowed_sort_keys ->
  run_select (build_chat_query req) (VNum (Num uid)) d
  = Some (page_rows uid per pg key d).
Proof.
  intros Hper Hp Hpg Hg Hs Hk.
  destruct (build_chat_query_valid req per pg key Hper Hp Hpg Hg Hs Hk)
    as (term & -> & Ht).
  unfold run_select, select_rows, apply_limit. cbn [order_term limit_clause].
  rewrite Ht. cbn [order_by].
  assert (E1 : (0 <=? per) = true) by (apply Z.leb_le; lia).
  assert (E2 : (0 <=? per * (pg - 1)) = true) by (apply Z.leb_le; nia).
  rewrite E1, E2. reflexivity.
Qed.

(** The two queries of the list endpoint, for a request it accepts. *)
Lemma list_chats_run (req : Request) (uid per pg : Z) (key : string) (w : World) :
  perPage req = Num per -> 0 < per ->
  page req = Num pg -> 0 < pg ->
  sortBy req = VStr key -> In key allowed_sort_keys ->
  list_chats req (VNum (Num uid)) w
  = (Next (map (chat_json req) (page_rows uid per pg key (db w)),
           Num (count_owned (VNum (Num uid)) (db w))),
     logged w [SelectChats (VNum (Num uid)); CountChats (VNum (Num uid))]).
Proof.
  intros Hper Hp Hpg Hg Hs Hk. unfold list_chats.
  unfold bind at 1. unfold query_chats. unfold bind at 1. cbn [perform].
  unfold bind at 1. cbn [get_db db].
  rewrite (run_select_valid req uid per pg key _ Hper Hp Hpg Hg Hs Hk).
  cbn [ret]. unfold bind at 1. rewrite map_m_with_blob_url.
  unfold bind at 1, query_count. unfold bind at 1. cbn [perform].
  unfold bind at 1. cbn [get_db db log]. unfold ret, logged.
  now rewrite <- app_assoc.
Qed.

Lemma getAllChats_run
  (env : Env) (req : Request) (w : World) (uid per pg : Z) (key : string) :
  valid_list_request req w uid per pg key ->
  getAllChatsController env req w
  = (Sent (mkResponse 200
             [("Link", VStr (render_links
                               (link_entries req
                                  (Num (count_owned (VNum (Num uid)) (db w))))))]
             (Json (VArr (map (chat_json req) (page_rows uid per pg key (db w)))))),
     logged w [UserFindOne (VNum (Num uid));
               SelectChats (VNum (Num uid));
               CountChats (VNum (Num uid))]).
Proof.
  intros (Hc & Hper & Hp & Hpg & Hg & Hs & Hk).
  unfold getAllChatsController. cbv zeta. rewrite owner_prefix.
  rewrite (valid_caller_admission _ _ _ Hc). destruct Hc as (Ha & _).
  rewrite Ha.
  assert (E1 : js_not (VNum (perPage req)) = false)
    by (rewrite Hper; unfold js_not, truthy;
        replace (per =? 0) with false by (symmetry; apply Z.eqb_neq; lia);
        reflexivity).
  assert (E2 : js_not (VNum (page req)) = false)
    by (rewrite Hpg; unfold js_not, truthy;
        replace (pg =? 0) with false by (symmetry; apply Z.eqb_neq; lia);
        reflexivity).
  assert (E3 : bad_sort_key (sortBy req) = false)
    by (rewrite Hs; destruct (allowed_sort_key_cases key Hk) as [-> | [-> | ->]];
        reflexivity).
  rewrite E1, E2, E3. cbn [orb when].
  unfold bind at 1. cbn [ret]. unfold bind at 1. cbn [ret].
  unfold bind at 1.
  rewrite (list_chats_run req uid per pg key _ Hper Hp Hpg Hg Hs Hk).
  unfold js_not in E1, E2. apply negb_false_iff in E1, E2. rewrite E1, E2.
  cbn [andb fst snd]. unfold respond, logged. cbn [db log].
  now rewrite <- app_assoc.
Qed.

Lemma StronglySorted_impl {A : Type} (R R' : A -> A -> Prop) (l : list A) :
  (forall a b, R a b -> R' a b) -> StronglySorted R l -> StronglySorted R' l.
Proof.
  intros HR. induction 1 as [|x l Hs IH Hx]; constructor; [exact IH|].
  eapply Forall_impl; [|exact Hx]. intros y. apply HR.
Qed.

Lemma valid_sample_list_request (per pg : Z) (key : string) :
  0 < per -> 0 < pg -> In key allowed_sort_keys ->
  valid_list_request (Sample.list_request per pg key) Sample.world0 1 per pg key.
Proof. intros Hp Hg Hk. repeat split; try reflexivity; try discriminate; assumption. Qed.

(** C4.  For a list request the endpoint accepts, with positive integers
    [page] and [perPage]: the response carries at most [perPage] items; they
    are the rows that follow the first [perPage * (page - 1)] rows of the
    caller's chats in the requested order, so that many rows are skipped (or
    all of them, when there are fewer); and the total the two queries answer
    is the number of chats of the caller, an expression in which neither
    [page] nor [perPage] occurs. *)
Theorem list_page_and_total
  (env : Env) (req : Request) (w : World) (uid per pg : Z) (key : string) :
  valid_list_request req w uid per pg key ->
  exists rows skipped rest hdrs,
    fst (getAllChatsController env req w)
    = Sent (mkResponse 200 hdrs (Json (VArr (map (chat_json req) rows)))) /\
    fst (list_chats req (VNum (Num uid)) w)
    = Next (map (chat_json req) rows,
            Num (Z.of_nat (List.length
                             (filter (owned_by (VNum (Num uid))) (chats (db w)))))) /\
    Z.of_nat (List.length (map (chat_json req) rows)) <= per /\
    ordered_chats uid key (db w) = skipped ++ rows ++ rest /\
    Z.of_nat (List.length skipped)
    = Z.min (per * (pg - 1)) (Z.of_nat (List.length (ordered_chats uid key (db w)))) /\
    (rest <> [] -> Z.of_nat (List.length rows) = per) /\
    Permutation (ordered_chats uid key (db w))
                (filter (owned_by (VNum (Num uid))) (chats (db w))).
Proof.
  intros Hv. pose proof (getAllChats_run env req w uid per pg key Hv) as Hrun.
  destruct Hv as (Hc & Hper & Hp & Hpg & Hg & Hs & Hk).
  pose proof (list_chats_run req uid per pg key w Hper Hp Hpg Hg Hs Hk) as Hl.
  set (all := ordered_chats uid key (db w)).
  set (k := Z.to_nat (per * (pg - 1))).
  set (n := Z.to_nat per).
  exists (page_rows uid per pg key (db w)), (firstn k all),
         (skipn n (skipn k all)).
  eexists. rewrite Hrun, Hl. cbn [fst].
  split; [reflexivity|]. split; [reflexivity|].
  unfold page_rows. fold all k n.
  split; [|split; [|split; [|split]]].
  - rewrite length_map. pose proof (firstn_le_length n (skipn k all)). lia.
  - now rewrite (firstn_skipn n), (firstn_skipn k).
  - rewrite length_firstn. unfold k. nia.
  - intros Hrest. rewrite length_firstn.
    assert (n < List.length (skipn k all))%nat.
    { destruct (Nat.lt_ge_cases n (List.length (skipn k all))) as [H | H];
        [exact H|].
      exfalso. apply Hrest. now apply skipn_all2. }
    unfold n in *. lia.
  - apply ordered_chats_perm.
Qed.

Lemma list_page_and_total_witness :
  exists rows,
    fst (list_chats (Sample.list_request 2 2 "name") (VNum (Num 1)) Sample.world0)
    = Next (map (chat_json (Sample.list_request 2 2 "name")) rows, Num 3) /\
    Z.of_nat (List.length (map (chat_json (Sample.list_request 2 2 "name")) rows)) <= 2.
Proof.
  destruct (list_page_and_total Sample.env (Sample.list_request 2 2 "name")
              Sample.world0 1 2 2 "name")
    as (rows & skipped & rest & hdrs & _ & Hl & Hn & _).
  - apply valid_sample_list_request; [reflexivity | reflexivity | simpl; tauto].
  - exists rows. split; [exact Hl | exact Hn].
Defined.

(** C5.  For a list request the endpoint accepts, the items of the response
    are a page of all the chats of the caller put in order: the rows of the
    response are the [perPage] rows after the first [perPage * (page - 1)] of
    a sequence that holds every chat of the caller exactly once, and that
    sequence (and so the page) is in descending order of [updatedAt] when
    that is the sort key, in ascending order of [name] when the key is
    [name], and in ascending order of [createdAt] when the key is
    [createdAt].  For a non-empty chat set the first page is not empty. *)
Theorem list_order
  (env : Env) (req : Request) (w : World) (uid per pg : Z) (key : string) :
  valid_list_request req w uid per pg key ->
  exists all rows hdrs,
    Permutation all (filter (owned_by (VNum (Num uid))) (chats (db w))) /\
    rows = firstn (Z.to_nat per) (skipn (Z.to_nat (per * (pg - 1))) all) /\
    fst (getAllChatsController env req w)
    = Sent (mkResponse 200 hdrs (Json (VArr (map (chat_json req) rows)))) /\
    (pg = 1 -> filter (owned_by (VNum (Num uid))) (chats (db w)) <> [] ->
     rows <> []) /\
    (key = "updatedAt" ->
     StronglySorted (fun a b => updatedAt b <= updatedAt a) all /\
     StronglySorted (fun a b => updatedAt b <= updatedAt a) rows) /\
    (key = "name" ->
     StronglySorted (fun a b => String.leb (name a) (name b) = true) all /\
     StronglySorted (fun a b => String.leb (name a) (name b) = true) rows) /\
    (key = "createdAt" ->
     StronglySorted (fun a b => createdAt a <= createdAt b) all /\
     StronglySorted (fun a b => createdAt a <= createdAt b) rows).
Proof.
  intros Hv. pose proof (getAllChats_run env req w uid per pg key Hv) as Hrun.
  destruct Hv as (Hc & Hper & Hp & Hpg & Hg & Hs & Hk).
  exists (ordered_chats uid key (db w)), (page_rows uid per pg key (db w)).
  eexists. rewrite Hrun.
  split; [apply ordered_chats_perm|]. split; [reflexivity|].
  split; [reflexivity|]. split.
  - intros -> Hne. unfold page_rows. replace (per * (1 - 1)) with 0 by lia.
    cbn [Z.to_nat skipn].
    pose proof (ordered_chats_perm uid key (db w)) as Hperm.
    destruct (ordered_chats uid key (db w)) as [|x l].
    + apply Permutation_nil in Hperm. now rewrite Hperm in Hne.
    + destruct (Z.to_nat per) as [|n] eqn:En; [lia|]. discriminate.
  - pose proof (ordered_chats_sorted uid key (db w)) as Ha.
    pose proof (page_rows_sorted uid per pg key (db w)) as Hr.
    split; [|split]; intros ->; (split; [revert Ha | revert Hr]);
      apply StronglySorted_impl;
      intros a b; cbn; intros H; try exact H; now apply Z.leb_le.
Qed.

Lemma list_order_witness :
  exists rows hdrs,
    fst (getAllChatsController Sample.env (Sample.list_request 2 1 "updatedAt")
           Sample.world0)
    = Sent (mkResponse 200 hdrs
              (Json (VArr (map (chat_json (Sample.list_request 2 1 "updatedAt")) rows)))) /\
    rows <> [] /\
    StronglySorted (fun a b => updatedAt b <= updatedAt a) rows.
Proof.
  destruct (list_order Sample.env (Sample.list_request 2 1 "updatedAt")
              Sample.world0 1 2 1 "updatedAt")
    as (all & rows & hdrs & _ & _ & Hr & Hne & Hu & _).
  - apply valid_sample_list_request; [reflexivity | reflexivity | simpl; tauto].
  - exists rows, hdrs. split; [exact Hr|]. split.
    + apply Hne; [reflexivity | discriminate].
    + now apply Hu.
Defined.

(** *** The Link header *)

Lemma ceil_div_spec (a b : Z) :
  0 < b -> (ceil_div a b - 1) * b < a <= ceil_div a b * b.
Proof.
  intros Hb. unfold ceil_div.
  pose proof (Z.mul_div_le (- a) b Hb).
  pose proof (Z.mul_succ_div_gt (- a) b Hb). lia.
Qed.

Lemma has_rel_app (r : string) (l1 l2 : list LinkEntry) :
  has_rel r (l1 ++ l2) <-> has_rel r l1 \/ has_rel r l2.
Proof.
  unfold has_rel. split.
  - intros (l & Hin & Hr). apply in_app_or in Hin.
    destruct Hin; [left | right]; now exists l.
  - intros [(l & Hin & Hr) | (l & Hin & Hr)]; exists l; split; auto;
      apply in_or_app; auto.
Qed.

Lemma has_rel_nil (r : string) : ~ has_rel r [].
Proof. intros (l & [] & _). Qed.

Lemma has_rel_single (r : string) (l : LinkEntry) : has_rel r [l] <-> rel l = r.
Proof.
  unfold has_rel. split.
  - intros (l' & [<- | []] & Hr). exact Hr.
  - intros Hr. exists l. split; [now left | exact Hr].
Qed.

Lemma string_app_assoc (s1 s2 s3 : string) :
  ((s1 ++ s2) ++ s3 = s1 ++ s2 ++ s3)%string.
Proof. induction s1 as [|a s1 IH]; simpl; [reflexivity | now rewrite IH]. Qed.




(** ** Scenarios of the specification, run on the sample store *)

(** Creating a chat from [data:text/plain;base64,aGVsbG8=] named "note"
    stores the MIME type [text/plain] and the five bytes of "hello". *)
Example create_scenario :
  fst (postChatController Sample.env (Sample.owner_request 0) Sample.world0)
  = Sent (json_response 200
            (metadata_response "http://localhost/api/chats/5/blob"
               (VNum (Num 5)) (VNum (Num 1)) (VStr "note")
               (VNum (Num 1700000000000)) (VNum (Num 1700000000000)))) /\
  chats (db (snd (postChatController Sample.env (Sample.owner_request 0)
                    Sample.world0)))
  = chats Sample.db0
    ++ [mkChat 5 1 "note" "text/plain" (list_byte_of_string "hello")
          1700000000000 1700000000000].
Proof. split; reflexivity. Qed.

(** Renaming a chat of another user answers 404 and renames nothing. *)
Example rename_foreign_chat :
  patchChatByIdController Sample.env (Sample.owner_request 3) Sample.world0
  = (Sent chat_not_found,
     logged Sample.world0 [UserFindOne (VNum (Num 1));
                           ChatUpdate (VNum (Num 3)) (VNum (Num 1))]).
Proof. reflexivity. Qed.

(** A token whose expiry has passed answers 410 on both token-scoped
    endpoints. *)
Example expired_token :
  fst (getChatWithJwtController Sample.env
         (Sample.token_request
            (VToken (VObj [("chatId", VNum (Num 1))]) "secret" (Some 1699999999)))
         Sample.world0)
  = Sent (json_response 410 (message "jwt expired")) /\
  fst (getBlobWithJwtController Sample.env
         (Sample.token_request
            (VToken (VObj [("chatId", VNum (Num 1))]) "secret" (Some 1699999999)))
         Sample.world0)
  = Sent (json_response 410 (message "jwt expired")).
Proof. split; reflexivity. Qed.

(** The owner's blob endpoint sends the stored bytes under the stored type. *)
Example blob_scenario :
  fst (getChatBlobController Sample.env (Sample.owner_request 1) Sample.world0)
  = Sent (mkResponse 200 [("Content-Type", VStr "text/plain")]
            (Raw (list_byte_of_string "hello"))).
Proof. reflexivity. Qed.

(** * Further properties of the controller *)

(** ** What the handlers do to the store *)

Section DbStep.

Variable R : Db -> Db -> Prop.
Hypothesis R_refl : forall d, R d d.
Hypothesis R_trans : forall d1 d2 d3, R d1 d2 -> R d2 d3 -> R d1 d3.

Lemma step_ret {A : Type} (a : A) : db_step R (ret a).
Proof. intros w. apply R_refl. Qed.

Lemma step_respond {A : Type} (r : Response) : db_step R (@respond A r).
Proof. intros w. apply R_refl. Qed.

Lemma step_throw {A : Type} (e : JsError) : db_step R (@throw A e).
Proof. intros w. apply R_refl. Qed.

Lemma step_perform (op : DbOp) : db_step R (perform op).
Proof. intros w. apply R_refl. Qed.

Lemma step_get_db : db_step R get_db.
Proof. intros w. apply R_refl. Qed.

Lemma step_bind {A B : Type} (m : M A) (k : A -> M B) :
  db_step R m -> (forall a, db_step R (k a)) -> db_step R (x <- m ;; k x).
Proof.
  intros Hm Hk w. unfold bind. pose proof (Hm w) as H.
  destruct (m w) as [[a | r | e] w']; simpl in *; [|exact H|exact H].
  apply R_trans with (db w'); [exact H | apply Hk].
Qed.

Lemma step_try_catch {A : Type} (m : M A) (h : JsError -> M A) :
  db_step R m -> (forall e, db_step R (h e)) -> db_step R (try_catch m h).
Proof.
  intros Hm Hh w. unfold try_catch. pose proof (Hm w) as H.
  destruct (m w) as [[a | r | e] w']; simpl in *; [exact H|exact H|].
  apply R_trans with (db w'); [exact H | apply Hh].
Qed.

Lemma step_when (c : bool) (m : M unit) : db_step R m -> db_step R (when c m).
Proof. intros Hm. destruct c; [exact Hm | apply step_ret]. Qed.

Lemma step_lift (r : JsError + JsValue) : db_step R (lift r).
Proof. destruct r; [apply step_throw | apply step_ret]. Qed.

Lemma step_map_m {A B : Type} (f : A -> M B) (l : list A) :
  (forall a, db_step R (f a)) -> db_step R (map_m f l).
Proof.
  intros Hf. induction l as [|x l IH]; simpl.
  - apply step_ret.
  - apply step_bind; [apply Hf | intros y].
    apply step_bind; [exact IH | intros ys]. apply step_ret.
Qed.

End DbStep.

(** Decomposes a computation; [leaf] closes the steps that write. *)
Ltac step_with leaf :=
  repeat match goal with
  | |- db_step _ (bind _ _) => apply step_bind; [assumption .. | | intro]
  | |- db_step _ (try_catch _ _) =>
      apply step_try_catch; [assumption .. | | intro]
  | |- db_step _ (when _ _) => apply step_when; [assumption .. |]
  | |- db_step _ (map_m _ _) => apply step_map_m; [assumption .. | intro]
  | |- db_step _ (ret _) => apply step_ret; assumption
  | |- db_step _ (respond _) => apply step_respond; assumption
  | |- db_step _ (throw _) => apply step_throw; assumption
  | |- db_step _ (perform _) => apply step_perform; assumption
  | |- db_step _ get_db => apply step_get_db; assumption
  | |- db_step _ (lift _) => apply step_lift; assumption
  | |- db_step _ (get_prop _ _) => apply step_lift; assumption
  | |- db_step _ (get_index _ _) => apply step_lift; assumption
  | |- db_step _ (match ?x with _ => _ end) => destruct x
  | |- db_step _ (let _ := _ in _) => cbv zeta
  | |- _ => leaf
  end.

Ltac unfold_reads :=
  cbv [list_chats with_blob_url match_zero Buffer_from_base64 User_findOne
       hasChat query_chats query_count Chat_findOne query_chat_by_id
       Chat_findByPk sign verify].

(** X1.  The list, get-by-id, get-blob, issue-token and the two token-scoped
    endpoints never change the store, whatever the request and whatever
    they answer. *)
Theorem read_only_endpoints_keep_store
  (e : Endpoint) (env : Env) (req : Request) (w : World) :
  read_only e = true -> db (snd (handler e env req w)) = db w.
Proof.
  intros He. symmetry.
  assert (Hrefl : forall d : Db, d = d) by reflexivity.
  assert (Htrans : forall d1 d2 d3 : Db, d1 = d2 -> d2 = d3 -> d1 = d3)
    by (intros; congruence).
  revert w. change (db_step eq (handler e env req)).
  destruct e as [[] | |]; try discriminate He; cbv [handler];
    unfold_handlers;
    cbv [getChatWithJwtController getBlobWithJwtController];
    unfold_reads; step_with fail.
Qed.

Lemma read_only_endpoints_keep_store_witness :
  db (snd (getTokenByIdController Sample.env (Sample.owner_request 99) Sample.world0))
  = Sample.db0.
Proof.
  apply (read_only_endpoints_keep_store (Owner IssueToken) Sample.env
           (Sample.owner_request 99) Sample.world0).
  reflexivity.
Defined.

Lemma store_step_refl (d : Db) : store_step d d.
Proof. split; [reflexivity | split; [lia | auto]]. Qed.

Lemma store_step_trans (d1 d2 d3 : Db) :
  store_step d1 d2 -> store_step d2 d3 -> store_step d1 d3.
Proof.
  intros (Hu & Hn & Hw) (Hu' & Hn' & Hw').
  split; [congruence | split; [lia | auto]].
Qed.

Lemma store_step_createChat (now : Z) (user : JsValue) (mime : string)
  (bytes : list Byte.byte) (nm : string) :
  db_step store_step (createChat now user mime bytes nm).
Proof.
  intros w. unfold createChat, bind, get_prop, perform, get_db, put_db.
  destruct (read_prop user "userId") as [e | uid]; cbn [lift throw ret];
    [apply store_step_refl|].
  destruct uid as [| | | [|u] | | | | | |]; cbn [snd db throw ret];
    try apply store_step_refl.
  split; [reflexivity | split; [cbn; lia |]].
  intros [Hn Hf]. split; unfold fresh_ids in *; cbn [chats nextChatId].
  - rewrite map_app. apply NoDup_app; [exact Hn | |].
    + simpl. constructor; [intros [] | constructor].
    + intros a Ha [<- | []]. cbn [chatId] in Ha.
      apply in_map_iff in Ha. destruct Ha as (c & Hc & Hin).
      apply (proj1 (Forall_forall _ _) Hf) in Hin. lia.
  - apply Forall_app. split.
    + eapply Forall_impl; [|exact Hf]. intros c Hc. simpl in Hc. lia.
    + constructor; [cbn [chatId]; lia | constructor].
Qed.

Lemma rename_row_fixed (now : Z) (nm : string) (cid uid : JsValue) (c : ChatRow) :
  fixed_columns (rename_row now nm cid uid c) = fixed_columns c.
Proof. unfold rename_row. now destruct (chat_matches cid uid c). Qed.

Lemma map_rename_row_fixed (now : Z) (nm : string) (cid uid : JsValue)
  (l : list ChatRow) :
  map fixed_columns (map (rename_row now nm cid uid) l) = map fixed_columns l.
Proof.
  rewrite map_map. apply map_ext. intros c. apply rename_row_fixed.
Qed.

Lemma rename_row_chatId (now : Z) (nm : string) (cid uid : JsValue) (c : ChatRow) :
  chatId (rename_row now nm cid uid c) = chatId c.
Proof. unfold rename_row. now destruct (chat_matches cid uid c). Qed.

Lemma store_step_Chat_update (now : Z) (nm : string) (uid cid : JsValue) :
  db_step store_step (Chat_update now nm uid cid).
Proof.
  intros w. unfold Chat_update, bind, perform, get_db, put_db, ret.
  destruct (where_rejected cid || where_rejected uid);
    [apply store_step_refl|].
  cbn [snd db users nextChatId chats].
  split; [reflexivity | split; [cbn; lia |]].
  intros [Hn Hf]. split; unfold fresh_ids in *; cbn [chats nextChatId].
  - rewrite map_map.
    erewrite map_ext; [exact Hn|]. intros c. apply rename_row_chatId.
  - apply Forall_map. eapply Forall_impl; [|exact Hf].
    intros c Hc. simpl. now rewrite rename_row_chatId.
Qed.

Lemma filter_keeps_key (keep : ChatRow -> bool) (rows : list ChatRow) :
  NoDup (map chatId rows) -> NoDup (map chatId (filter keep rows)).
Proof.
  induction rows as [|r rows IH]; simpl; intros Hn; [constructor|].
  apply NoDup_cons_iff in Hn. destruct Hn as [Hr Hn].
  destruct (keep r); simpl; [|now apply IH].
  constructor; [|now apply IH].
  intros Hin. apply Hr. apply in_map_iff in Hin.
  destruct Hin as (y & Hy & Hin). apply filter_In in Hin.
  apply in_map_iff. exists y. tauto.
Qed.

Lemma Forall_filter {A : Type} (P : A -> Prop) (p : A -> bool) (l : list A) :
  Forall P l -> Forall P (filter p l).
Proof.
  intros H. apply Forall_forall. intros x Hx. apply filter_In in Hx.
  now apply (proj1 (Forall_forall _ _) H).
Qed.

Lemma store_step_destroy (chat : JsValue) : db_step store_step (destroy chat).
Proof.
  intros w. unfold destroy, bind, get_prop, perform, get_db, put_db.
  destruct (read_prop chat "chatId") as [e | cid]; cbn [lift throw ret snd db];
    [apply store_step_refl|].
  split; [reflexivity | split; [cbn; lia |]].
  intros [Hn Hf]. split; unfold fresh_ids in *; cbn [chats nextChatId].
  - now apply filter_keeps_key.
  - now apply Forall_filter.
Qed.

(** X2.  Whatever the request, none of the nine handlers changes the [users]
    table or moves the auto-increment value back, and each of them leaves a
    store in which [chatId] is a key below the auto-increment value in that
    state. *)
Theorem handlers_keep_store_well_formed
  (e : Endpoint) (env : Env) (req : Request) (w : World) :
  users (db (snd (handler e env req w))) = users (db w) /\
  nextChatId (db w) <= nextChatId (db (snd (handler e env req w))) /\
  (db_wf (db w) -> db_wf (db (snd (handler e env req w)))).
Proof.
  pose proof store_step_refl as Hrefl. pose proof store_step_trans as Htrans.
  revert w. change (db_step store_step (handler e env req)).
  destruct e as [[] | |]; cbv [handler]; unfold_handlers;
    cbv [getChatWithJwtController getBlobWithJwtController];
    unfold_reads;
    step_with ltac:(first [ apply store_step_createChat
                          | apply store_step_Chat_update
                          | apply store_step_destroy ]).
Qed.

Lemma sample_db_wf : db_wf Sample.db0.
Proof.
  split.
  - simpl. repeat constructor; simpl; intuition discriminate.
  - unfold fresh_ids. simpl. repeat constructor.
Qed.

Lemma handlers_keep_store_well_formed_witness :
  db_wf (db (snd (postChatController Sample.env (Sample.owner_request 0)
                    Sample.world0))).
Proof.
  apply (handlers_keep_store_well_formed (Owner Create) Sample.env
           (Sample.owner_request 0) Sample.world0).
  exact sample_db_wf.
Defined.

(** ** Create *)

Lemma createChat_run (now : Z) (uid : Z) (mime : string)
  (bytes : list Byte.byte) (nm : string) (w : World) :
  createChat now (user_instance (mkUser uid)) mime bytes nm w
  = (Next (chat_instance (mkChat (nextChatId (db w)) uid nm mime bytes now now)),
     mkWorld (mkDb (users (db w))
                   (chats (db w)
                    ++ [mkChat (nextChatId (db w)) uid nm mime bytes now now])
                   (nextChatId (db w) + 1))
             (log w ++ [UserCreateChat (VNum (Num uid))])).
Proof. reflexivity. Qed.

Lemma postChat_run
  (env : Env) (req : Request) (w : World) (uid : Z) (mime payload : string) :
  valid_caller req w uid ->
  string_match (body_base64 req) = Some mime ->
  nth_error (split_comma (body_base64 req)) 1 = Some payload ->
  postChatController env req w
  = (Sent (json_response 200
             (chat_json req
                (mkChat (nextChatId (db w)) uid (body_name req) mime
                        (base64_decode payload) (now_ms env) (now_ms env)))),
     mkWorld (mkDb (users (db w))
                   (chats (db w)
                    ++ [mkChat (nextChatId (db w)) uid (body_name req) mime
                               (base64_decode payload) (now_ms env) (now_ms env)])
                   (nextChatId (db w) + 1))
             (log w ++ [UserFindOne (VNum (Num uid));
                        UserCreateChat (VNum (Num uid))])).
Proof.
  intros Hc Hm Hp. unfold postChatController. cbv zeta. rewrite owner_prefix.
  rewrite (valid_caller_admission _ _ _ Hc). rewrite Hm, Hp.
  unfold bind at 1. cbn [match_zero ret].
  unfold bind at 1. cbn [Buffer_from_base64 ret].
  unfold bind at 1. rewrite createChat_run.
  unfold logged. cbn [db log]. rewrite <- app_assoc. reflexivity.
Qed.

(** X3.  A create request of a valid caller whose body matches the MIME
    pattern and has a piece after its first comma stores one new row at the
    end of the table, with the next [chatId], the caller as owner, the
    matched text as MIME type, the decoded piece as data and the current time
    in both timestamps, and answers 200 with the metadata of that row. *)
Theorem create_stores_chat
  (env : Env) (req : Request) (w : World) (uid : Z) (mime payload : string) :
  valid_caller req w uid ->
  string_match (body_base64 req) = Some mime ->
  nth_error (split_comma (body_base64 req)) 1 = Some payload ->
  postChatController env req w
  = (Sent (json_response 200
             (chat_json req
                (mkChat (nextChatId (db w)) uid (body_name req) mime
                        (base64_decode payload) (now_ms env) (now_ms env)))),
     mkWorld (mkDb (users (db w))
                   (chats (db w)
                    ++ [mkChat (nextChatId (db w)) uid (body_name req) mime
                               (base64_decode payload) (now_ms env) (now_ms env)])
                   (nextChatId (db w) + 1))
             (log w ++ [UserFindOne (VNum (Num uid));
                        UserCreateChat (VNum (Num uid))])).
Proof. exact (postChat_run env req w uid mime payload). Qed.

Lemma create_stores_chat_witness :
  fst (postChatController Sample.env (Sample.owner_request 0) Sample.world0)
  = Sent (json_response 200
            (chat_json (Sample.owner_request 0)
               (mkChat 5 1 "note" "text/plain" (base64_decode "aGVsbG8=")
                       1700000000000 1700000000000))).
Proof.
  rewrite (create_stores_chat Sample.env (Sample.owner_request 0) Sample.world0 1
             "text/plain" "aGVsbG8=").
  - reflexivity.
  - repeat split; first [reflexivity | discriminate].
  - reflexivity.
  - reflexivity.
Defined.

(** X4.  A body that matches the MIME pattern but has no comma gives
    [Buffer.from] an [undefined] argument: the handler throws a TypeError,
    sends nothing and stores nothing. *)
Theorem create_without_payload_throws
  (env : Env) (req : Request) (w : World) (uid : Z) (mime : string) :
  valid_caller req w uid ->
  string_match (body_base64 req) = Some mime ->
  nth_error (split_comma (body_base64 req)) 1 = None ->
  exists m,
    postChatController env req w
    = (Thrown (TypeError m), logged w [UserFindOne (VNum (Num uid))]).
Proof.
  intros Hc Hm Hp. unfold postChatController. cbv zeta. rewrite owner_prefix.
  rewrite (valid_caller_admission _ _ _ Hc). rewrite Hm, Hp.
  eexists. reflexivity.
Qed.

Lemma create_without_payload_throws_witness :
  exists m,
    postChatController Sample.env
      (Sample.with_body (Sample.owner_request 0) "data:text/plain;base64")
      Sample.world0
    = (Thrown (TypeError m), logged Sample.world0 [UserFindOne (VNum (Num 1))]).
Proof.
  apply (create_without_payload_throws Sample.env _ Sample.world0 1 "text/plain").
  - repeat split; first [reflexivity | discriminate].
  - reflexivity.
  - reflexivity.
Defined.

(** ** The MIME pattern and [split] on a data URI *)

Lemma match_plus_run (cls : ascii -> bool) (re : list Atom) (a : ascii)
  (run rest : list ascii) :
  forallb cls (a :: run) = true ->
  match rest with
  | [] => True
  | b :: _ => cls b = false
  end ->
  (forall b t, cls b = true -> match_here re (b :: t) = None) ->
  match_here (Plus cls :: re) ((a :: run) ++ rest)
  = option_map (app (a :: run)) (match_here re rest).
Proof.
  intros Hrun Hrest Hre. revert a Hrun.
  induction run as [|b run IH]; intros a Hrun.
  - simpl in Hrun. rewrite andb_true_r in Hrun. cbn [app match_here].
    rewrite Hrun.
    destruct rest as [|c rest]; [now destruct (match_here re [])|].
    rewrite Hrest. now destruct (match_here re (c :: rest)).
  - cbn [forallb] in Hrun. apply andb_prop in Hrun. destruct Hrun as [Ha Hrun].
    specialize (IH b Hrun).
    change (match_here (Plus cls :: re) ((a :: b :: run) ++ rest))
      with (if cls a then
              match match_here (Plus cls :: re) ((b :: run) ++ rest) with
              | Some m => Some (a :: m)
              | None => option_map (cons a) (match_here re ((b :: run) ++ rest))
              end
            else None).
    rewrite Ha, IH.
    destruct (match_here re rest) as [m|]; [reflexivity|].
    cbn [option_map app]. rewrite Hre; [reflexivity|].
    cbn [forallb] in Hrun. now apply andb_prop in Hrun.
Qed.

Lemma search_skip (re : list Atom) (a : ascii) (s : list ascii) :
  match_here re (a :: s) = None -> search re (a :: s) = search re s.
Proof. intros H. cbn [search]. now rewrite H. Qed.

Lemma search_hit (re : list Atom) (s m : list ascii) :
  match_here re s = Some m -> search re s = Some m.
Proof. intros H. destruct s; cbn [search]; now rewrite H. Qed.

Lemma word_is_not_punctuation (b : ascii) :
  is_word b = true ->
  (b =? ":")%char = false /\ (b =? "/")%char = false /\ (b =? ",")%char = false.
Proof.
  destruct b as [[] [] [] [] [] [] [] []]; intros H;
    try discriminate H; repeat split.
Qed.

Lemma subtype_char_is_not_separator (b : ascii) :
  is_subtype_char b = true ->
  (b =? ";")%char = false /\ (b =? ",")%char = false.
Proof.
  destruct b as [[] [] [] [] [] [] [] []]; intros H;
    try discriminate H; repeat split.
Qed.

Lemma list_ascii_of_string_app (s1 s2 : string) :
  list_ascii_of_string (s1 ++ s2)
  = (list_ascii_of_string s1 ++ list_ascii_of_string s2)%list.
Proof. induction s1 as [|a s1 IH]; simpl; [reflexivity | now rewrite IH]. Qed.

Lemma string_of_list_ascii_app (l1 l2 : list ascii) :
  string_of_list_ascii (l1 ++ l2)
  = (string_of_list_ascii l1 ++ string_of_list_ascii l2)%string.
Proof. induction l1 as [|a l1 IH]; simpl; [reflexivity | now rewrite IH]. Qed.

Lemma match_one (cls : ascii -> bool) (re : list Atom) (a : ascii) (s : list ascii) :
  match_here (One cls :: re) (a :: s)
  = if cls a then option_map (cons a) (match_here re s) else None.
Proof. reflexivity. Qed.

Lemma match_ahead (cls : ascii -> bool) (re : list Atom) (a : ascii) (s : list ascii) :
  match_here (Ahead cls :: re) (a :: s)
  = if cls a then match_here re (a :: s) else None.
Proof. reflexivity. Qed.

(** The pattern does not match inside [data:], whatever follows. *)
Lemma no_match_in_scheme (s : list ascii) :
  search mime_regex ("d" :: "a" :: "t" :: "a" :: ":" :: s)%char
  = search mime_regex s.
Proof.
  assert (Hre : forall b t, is_word b = true ->
            match_here [One (fun a => (a =? "/")%char); Plus is_subtype_char;
                        Ahead (fun a => (a =? ";")%char || (a =? ",")%char)]
                       (b :: t) = None).
  { intros b t Hb. rewrite match_one.
    now rewrite (proj1 (proj2 (word_is_not_punctuation b Hb))). }
  rewrite search_skip.
  2:{ unfold mime_regex. rewrite match_one. cbn [Ascii.eqb Bool.eqb negb andb].
      change ("a" :: "t" :: "a" :: ":" :: s)%char
        with (("a" :: ["t"; "a"]) ++ ":" :: s)%char.
      rewrite match_plus_run; [reflexivity | reflexivity | reflexivity | exact Hre]. }
  rewrite search_skip.
  2:{ unfold mime_regex. rewrite match_one. cbn [Ascii.eqb Bool.eqb negb andb].
      change ("t" :: "a" :: ":" :: s)%char with (("t" :: ["a"]) ++ ":" :: s)%char.
      rewrite match_plus_run; [reflexivity | reflexivity | reflexivity | exact Hre]. }
  rewrite search_skip.
  2:{ unfold mime_regex. rewrite match_one. cbn [Ascii.eqb Bool.eqb negb andb].
      change ("a" :: ":" :: s)%char with (("a" :: []) ++ ":" :: s)%char.
      rewrite match_plus_run; [reflexivity | reflexivity | reflexivity | exact Hre]. }
  rewrite search_skip; [|reflexivity].
  rewrite search_skip; [|reflexivity].
  reflexivity.
Qed.

Lemma match_mime_type (t0 t1 : ascii) (t : list ascii) (s0 : ascii)
  (s rest : list ascii) (sep : ascii) :
  forallb is_word (t0 :: t1 :: t) = true ->
  forallb is_subtype_char (s0 :: s) = true ->
  (sep = ";" \/ sep = ",")%char ->
  match_here mime_regex ((t0 :: t1 :: t) ++ "/"%char :: (s0 :: s) ++ sep :: rest)
  = Some ((t0 :: t1 :: t) ++ "/"%char :: s0 :: s).
Proof.
  intros Ht Hs Hsep. cbn [forallb] in Ht. apply andb_prop in Ht.
  destruct Ht as [Ht0 Ht].
  unfold mime_regex. cbn [app]. rewrite match_one.
  rewrite (proj1 (word_is_not_punctuation t0 Ht0)). cbn [negb].
  change (t1 :: t ++ "/"%char :: s0 :: s ++ sep :: rest)
    with ((t1 :: t) ++ "/"%char :: (s0 :: s) ++ sep :: rest).
  rewrite match_plus_run; [| exact Ht | reflexivity |].
  2:{ intros b u Hb. rewrite match_one.
      now rewrite (proj1 (proj2 (word_is_not_punctuation b Hb))). }
  rewrite match_one. cbn [Ascii.eqb Bool.eqb andb].
  rewrite match_plus_run; [| exact Hs | |].
  - assert (Hl : ((sep =? ";")%char || (sep =? ",")%char) = true)
      by (destruct Hsep as [-> | ->]; reflexivity).
    rewrite match_ahead, Hl. cbn [match_here option_map]. now rewrite app_nil_r.
  - destruct Hsep as [-> | ->]; reflexivity.
  - intros b u Hb. rewrite match_ahead.
    destruct (subtype_char_is_not_separator b Hb) as [-> ->]. reflexivity.
Qed.

Lemma split_comma_plain (s : string) :
  all_chars (fun a => negb (a =? ",")%char) s = true -> split_comma s = [s].
Proof.
  unfold all_chars. induction s as [|a s IH]; [reflexivity|].
  cbn [list_ascii_of_string forallb split_comma]. intros H.
  apply andb_prop in H. destruct H as [Ha Hs]. apply negb_true_iff in Ha.
  rewrite Ha, (IH Hs). reflexivity.
Qed.

Lemma split_comma_head (h r : string) :
  all_chars (fun a => negb (a =? ",")%char) h = true ->
  split_comma (h ++ String "," r) = h :: split_comma r.
Proof.
  unfold all_chars. induction h as [|a h IH]; [reflexivity|].
  cbn [list_ascii_of_string forallb]. intros H.
  apply andb_prop in H. destruct H as [Ha Hs]. apply negb_true_iff in Ha.
  change (String a h ++ String "," r)%string with (String a (h ++ String "," r)).
  cbn [split_comma]. rewrite Ha, (IH Hs). reflexivity.
Qed.

Lemma all_chars_app (p : ascii -> bool) (s1 s2 : string) :
  all_chars p (s1 ++ s2) = all_chars p s1 && all_chars p s2.
Proof. unfold all_chars. now rewrite list_ascii_of_string_app, forallb_app. Qed.

Lemma all_chars_impl (p q : ascii -> bool) (s : string) :
  (forall a, p a = true -> q a = true) ->
  all_chars p s = true -> all_chars q s = true.
Proof.
  intros Hpq. unfold all_chars. rewrite !forallb_forall. auto.
Qed.

Lemma data_uri_parse (type subtype payload : string) :
  (2 <= String.length type)%nat ->
  all_chars is_word type = true ->
  (1 <= String.length subtype)%nat ->
  all_chars is_subtype_char subtype = true ->
  all_chars (fun a => negb (a =? ",")%char) payload = true ->
  string_match (data_uri type subtype payload) = Some (type ++ "/" ++ subtype)%string /\
  nth_error (split_comma (data_uri type subtype payload)) 1 = Some payload.
Proof.
  intros Hlt Ht Hls Hs Hp. split.
  - unfold string_match, data_uri.
    rewrite !list_ascii_of_string_app.
    change (list_ascii_of_string "data:")
      with ["d"; "a"; "t"; "a"; ":"]%char.
    cbn [app]. rewrite no_match_in_scheme.
    destruct type as [|t0 [|t1 t]]; simpl in Hlt; try lia.
    destruct subtype as [|s0 s]; simpl in Hls; try lia.
    cbn [list_ascii_of_string].
    change (list_ascii_of_string ";base64,")
      with (";" :: list_ascii_of_string "base64,")%char. 
    erewrite search_hit.
    2:{ apply (match_mime_type t0 t1 (list_ascii_of_string t) s0
                 (list_ascii_of_string s)); [exact Ht | exact Hs | now left]. }
    cbn [option_map]. f_equal.
    rewrite string_of_list_ascii_app. cbn [string_of_list_ascii].
    now rewrite !string_of_list_ascii_of_string.
  - assert (Hh : all_chars (fun a => negb (a =? ",")%char)
                   ("data:" ++ type ++ "/" ++ subtype ++ ";base64") = true).
    { rewrite !all_chars_app.
      rewrite (all_chars_impl is_word _ type); [| | exact Ht].
      2:{ intros a Ha. now rewrite (proj2 (proj2 (word_is_not_punctuation a Ha))). }
      rewrite (all_chars_impl is_subtype_char _ subtype); [| | exact Hs].
      2:{ intros a Ha. now rewrite (proj2 (subtype_char_is_not_separator a Ha)). }
      reflexivity. }
    replace (data_uri type subtype payload)
      with (("data:" ++ type ++ "/" ++ subtype ++ ";base64") ++ String "," payload)%string.
    + rewrite (split_comma_head _ _ Hh), (split_comma_plain _ Hp). reflexivity.
    + unfold data_uri. rewrite !string_app_assoc. reflexivity.
Qed.

(** X5.  On a data URI [data:<type>/<subtype>;base64,<payload>] whose type
    is two or more word characters, whose subtype is one or more characters
    of the class of the pattern and whose payload has no comma, the pattern
    of the create handler matches exactly [<type>/<subtype>], and the piece
    after the first comma is the payload. *)
Theorem data_uri_is_parsed (type subtype payload : string) :
  (2 <= String.length type)%nat ->
  all_chars is_word type = true ->
  (1 <= String.length subtype)%nat ->
  all_chars is_subtype_char subtype = true ->
  all_chars (fun a => negb (a =? ",")%char) payload = true ->
  string_match (data_uri type subtype payload) = Some (type ++ "/" ++ subtype)%string /\
  nth_error (split_comma (data_uri type subtype payload)) 1 = Some payload.
Proof. exact (data_uri_parse type subtype payload). Qed.

Lemma data_uri_is_parsed_witness :
  string_match (data_uri "text" "plain" "aGVsbG8=") = Some "text/plain" /\
  nth_error (split_comma (data_uri "text" "plain" "aGVsbG8=")) 1 = Some "aGVsbG8=".
Proof.
  apply (data_uri_is_parsed "text" "plain" "aGVsbG8=");
    first [reflexivity | simpl; lia].
Defined.

(** ** The endpoints that address one chat of the caller *)

Lemma find_none_filter {A : Type} (p : A -> bool) (l : list A) :
  find p l = None -> filter p l = [].
Proof.
  induction l as [|x l IH]; simpl; [reflexivity|].
  destruct (p x); [discriminate | exact IH].
Qed.

Lemma find_none_rename (now : Z) (nm : string) (cid uid : JsValue) (l : list ChatRow) :
  find (chat_matches cid uid) l = None ->
  map (rename_row now nm cid uid) l = l.
Proof.
  induction l as [|x l IH]; simpl; [reflexivity|]. unfold rename_row at 1.
  destruct (chat_matches cid uid x); [discriminate|].
  intros H. now rewrite (IH H).
Qed.

Lemma Chat_update_run (now : Z) (nm : string) (uid cid : JsValue) (w : World) :
  where_rejected cid || where_rejected uid = false ->
  Chat_update now nm uid cid w
  = (Next (VArr [VNum (Num (Z.of_nat (List.length
                                        (filter (chat_matches cid uid) (chats (db w))))))]),
     mkWorld (mkDb (users (db w)) (map (rename_row now nm cid uid) (chats (db w)))
                   (nextChatId (db w)))
             (log w ++ [ChatUpdate cid uid])).
Proof. intros H. unfold Chat_update, bind, perform. now rewrite H. Qed.

Lemma getChatBlob_run (env : Env) (req : Request) (w : World) (uid : Z) :
  valid_caller req w uid ->
  getChatBlobController env req w
  = (match chat_id req with
     | NaN => Thrown nan_in_where
     | Num _ =>
         match find (chat_matches (VNum (chat_id req)) (VNum (Num uid)))
                    (chats (db w)) with
         | Some c => Sent (mkResponse 200 [("Content-Type", VStr (mimeType c))]
                             (Raw (data c)))
         | None => Sent chat_not_found
         end
     end,
     logged w [UserFindOne (VNum (Num uid));
               ChatFindOne (VNum (chat_id req)) (VNum (Num uid))]).
Proof.
  intros Hc. unfold getChatBlobController. cbv zeta. rewrite owner_prefix.
  rewrite (valid_caller_admission _ _ _ Hc). destruct Hc as (-> & _).
  unfold bind at 1. rewrite Chat_findOne_run.
  unfold logged. cbn [db log]. rewrite <- app_assoc. cbn [app].
  destruct (chat_id req) as [|cid]; [reflexivity|]. cbn [where_rejected orb].
  destruct (find _ _) as [c|]; reflexivity.
Qed.

Lemma db_eta (d : Db) : mkDb (users d) (chats d) (nextChatId d) = d.
Proof. now destruct d. Qed.

Lemma chat_scoped_not_found
  (e : OwnerEndpoint) (env : Env) (req : Request) (w : World) (uid cid : Z) :
  chat_scoped e = true ->
  valid_caller req w uid ->
  chat_id req = Num cid ->
  find (chat_matches (VNum (Num cid)) (VNum (Num uid))) (chats (db w)) = None ->
  fst (owner_handler e env req w) = Sent chat_not_found /\
  db (snd (owner_handler e env req w)) = db w.
Proof.
  intros He Hc Hid Hf. destruct e; try discriminate He; cbv [owner_handler].
  - rewrite (getChatById_run _ _ _ _ Hc), Hid, Hf. now split.
  - assert (H : patchChatByIdController env req w
                = (Sent chat_not_found,
                   logged w [UserFindOne (VNum (Num uid));
                             ChatUpdate (VNum (Num cid)) (VNum (Num uid))])).
    { unfold patchChatByIdController. cbv zeta. rewrite owner_prefix.
      rewrite (valid_caller_admission _ _ _ Hc). destruct Hc as (-> & _).
      rewrite Hid.
      unfold bind at 1. rewrite Chat_update_run; [|reflexivity].
      unfold logged. cbn [db log].
      rewrite (find_none_filter _ _ Hf), (find_none_rename _ _ _ _ _ Hf).
      rewrite db_eta, <- app_assoc. reflexivity. }
    rewrite H. now split.
  - assert (H : deleteChatByIdController env req w
                = (Sent chat_not_found,
                   logged w [UserFindOne (VNum (Num uid));
                             ChatFindOne (VNum (Num cid)) (VNum (Num uid))])).
    { unfold deleteChatByIdController. cbv zeta. rewrite owner_prefix.
      rewrite (valid_caller_admission _ _ _ Hc). destruct Hc as (-> & _).
      rewrite Hid.
      unfold bind at 1. rewrite Chat_findOne_run. unfold logged. cbn [db log].
      cbn [where_rejected orb]. rewrite Hf, <- app_assoc. reflexivity. }
    rewrite H. now split.
  - rewrite (getChatBlob_run _ _ _ _ Hc), Hid, Hf. now split.
Qed.

(** X6.  When the requested chat id is a number and no row has both that
    [chatId] and the caller as owner, the get-by-id, rename, delete and
    get-blob endpoints all answer 404 "Chat not found" and leave the store as
    it is.  (A chat id that is not a number is NaN after the unary plus, and
    the lookup with it is rejected by the datastore.) *)
Theorem missing_chat_is_404
  (e : OwnerEndpoint) (env : Env) (req : Request) (w : World) (uid cid : Z) :
  chat_scoped e = true ->
  valid_caller req w uid ->
  chat_id req = Num cid ->
  find (chat_matches (VNum (Num cid)) (VNum (Num uid))) (chats (db w)) = None ->
  fst (owner_handler e env req w) = Sent chat_not_found /\
  db (snd (owner_handler e env req w)) = db w.
Proof. exact (chat_scoped_not_found e env req w uid cid). Qed.

Lemma missing_chat_is_404_witness :
  fst (patchChatByIdController Sample.env (Sample.owner_request 3) Sample.world0)
  = Sent chat_not_found /\
  db (snd (patchChatByIdController Sample.env (Sample.owner_request 3) Sample.world0))
  = Sample.db0.
Proof.
  apply (missing_chat_is_404 Rename Sample.env (Sample.owner_request 3)
           Sample.world0 1 3).
  - reflexivity.
  - repeat split; first [reflexivity | discriminate].
  - reflexivity.
  - reflexivity.
Defined.

Lemma key_inj {A B : Type} (f : A -> B) (l : list A) (x y : A) :
  NoDup (map f l) -> In x l -> In y l -> f x = f y -> x = y.
Proof.
  induction l as [|z l IH]; simpl; intros Hn Hx Hy Hxy; [contradiction|].
  apply NoDup_cons_iff in Hn. destruct Hn as [Hz Hn].
  destruct Hx as [<- | Hx]; destruct Hy as [<- | Hy]; auto.
  - exfalso. apply Hz. rewrite Hxy. now apply in_map.
  - exfalso. apply Hz. rewrite <- Hxy. now apply in_map.
Qed.

Lemma foreign_chat_not_found (l : list ChatRow) (c : ChatRow) (uid : Z) :
  NoDup (map chatId l) -> In c l -> userId c <> uid ->
  find (chat_matches (VNum (Num (chatId c))) (VNum (Num uid))) l = None.
Proof.
  intros Hn Hin Hu.
  destruct (find _ l) as [x|] eqn:Hf; [|reflexivity].
  apply find_some in Hf. destruct Hf as [Hx Hm].
  unfold chat_matches in Hm. apply andb_prop in Hm. destruct Hm as [H1 H2].
  simpl in H1, H2. apply Z.eqb_eq in H1, H2.
  assert (x = c) by (apply (key_inj chatId l); auto). subst x. congruence.
Qed.

(** X7.  A caller cannot read, rename or delete the chat of another user
    through the owner-scoped endpoints: for a stored chat with a different
    owner, get-by-id, rename, delete and get-blob answer the same 404 as for
    a chat that does not exist, and the store is unchanged. *)
Theorem foreign_chat_is_404
  (e : OwnerEndpoint) (env : Env) (req : Request) (w : World) (uid : Z)
  (c : ChatRow) :
  chat_scoped e = true ->
  valid_caller req w uid ->
  NoDup (map chatId (chats (db w))) ->
  In c (chats (db w)) ->
  userId c <> uid ->
  chat_id req = Num (chatId c) ->
  fst (owner_handler e env req w) = Sent chat_not_found /\
  db (snd (owner_handler e env req w)) = db w.
Proof.
  intros He Hc Hn Hin Hu Hid.
  apply chat_scoped_not_found with uid (chatId c); auto.
  now apply foreign_chat_not_found.
Qed.

Lemma foreign_chat_is_404_witness :
  fst (deleteChatByIdController Sample.env (Sample.owner_request 3) Sample.world0)
  = Sent chat_not_found /\
  db (snd (deleteChatByIdController Sample.env (Sample.owner_request 3) Sample.world0))
  = Sample.db0.
Proof.
  apply (foreign_chat_is_404 Delete Sample.env (Sample.owner_request 3)
           Sample.world0 1 Sample.chat3).
  - reflexivity.
  - repeat split; first [reflexivity | discriminate].
  - exact (proj1 sample_db_wf).
  - simpl. tauto.
  - discriminate.
  - reflexivity.
Defined.

Lemma find_after_delete (cid : JsValue) (uid : JsValue) (l : list ChatRow) :
  find (chat_matches cid uid)
       (filter (fun c => negb (sql_eq cid (chatId c))) l) = None.
Proof.
  induction l as [|x l IH]; simpl; [reflexivity|].
  destruct (sql_eq cid (chatId x)) eqn:E; simpl; [exact IH|].
  unfold chat_matches at 1. now rewrite E.
Qed.

(** X8.  Once a delete has answered 200 for a chat, get-by-id, rename,
    delete and get-blob for the same [chatId] answer 404, for every caller
    and at any later time, as long as the store is the one the delete left. *)
Theorem deleted_chat_is_gone
  (e : OwnerEndpoint) (env env' : Env) (req req' : Request) (w w' : World)
  (uid : Z) :
  chat_scoped e = true ->
  deleteChatByIdController env req w
  = (Sent (json_response 200 (message "ok")), w') ->
  valid_caller req' w' uid ->
  chat_id req' = chat_id req ->
  fst (owner_handler e env' req' w') = Sent chat_not_found.
Proof.
  intros He Hd Hc Hid.
  destruct (delete_success_id _ _ _ _ Hd) as (cid & Hcid).
  apply (chat_scoped_not_found e env' req' w' uid cid He Hc); [congruence|].
  rewrite (delete_success _ _ _ _ Hd), Hcid. apply find_after_delete.
Qed.

Lemma deleted_chat_is_gone_witness :
  fst (getChatBlobController Sample.env (Sample.owner_request 1)
         (snd (deleteChatByIdController Sample.env (Sample.owner_request 1)
                 Sample.world0)))
  = Sent chat_not_found.
Proof.
  apply (deleted_chat_is_gone GetBlob Sample.env Sample.env
           (Sample.owner_request 1) (Sample.owner_request 1) Sample.world0 _ 1).
  - reflexivity.
  - reflexivity.
  - repeat split; first [reflexivity | discriminate].
  - reflexivity.
Defined.

(** ** Rename *)

Lemma chat_matches_rename_row (now : Z) (nm : string) (cid uid cid' uid' : JsValue)
  (c : ChatRow) :
  chat_matches cid' uid' (rename_row now nm cid uid c) = chat_matches cid' uid' c.
Proof. unfold rename_row. now destruct (chat_matches cid uid c). Qed.

Lemma find_rename (now : Z) (nm : string) (cid uid : JsValue) (l : list ChatRow) :
  find (chat_matches cid uid) (map (rename_row now nm cid uid) l)
  = option_map (renamed now nm) (find (chat_matches cid uid) l).
Proof.
  induction l as [|x l IH]; simpl; [reflexivity|].
  rewrite chat_matches_rename_row. unfold rename_row at 1.
  destruct (chat_matches cid uid x); [reflexivity | exact IH].
Qed.

Lemma filter_key (l : list ChatRow) (c : ChatRow) (p : ChatRow -> bool) :
  NoDup (map chatId l) -> In c l -> p c = true ->
  (forall x, p x = true -> chatId x = chatId c) ->
  filter p l = [c].
Proof.
  intros Hn Hin Hpc Hp. induction l as [|x l IH]; simpl in *; [contradiction|].
  apply NoDup_cons_iff in Hn. destruct Hn as [Hx Hn].
  destruct Hin as [-> | Hin].
  - rewrite Hpc. f_equal.
    destruct (filter p l) as [|y r] eqn:Hf; [reflexivity|].
    exfalso. assert (Hy : In y (filter p l)) by (rewrite Hf; now left).
    apply filter_In in Hy. destruct Hy as [Hy Hpy].
    apply Hx. rewrite <- (Hp y Hpy). now apply in_map.
  - destruct (p x) eqn:Hpx; [|now apply IH].
    exfalso. apply Hx. rewrite (Hp x Hpx). now apply in_map.
Qed.

Lemma rename_row_by_key (now : Z) (nm : string) (cid uid : JsValue)
  (l : list ChatRow) (c : ChatRow) :
  NoDup (map chatId l) -> In c l -> chat_matches cid uid c = true ->
  map (rename_row now nm cid uid) l
  = map (fun x => if chatId x =? chatId c then renamed now nm x else x) l.
Proof.
  intros Hn Hin Hc. apply map_ext_in. intros x Hx. unfold rename_row.
  destruct (chat_matches cid uid x) eqn:Hm.
  - assert (x = c).
    { apply (key_inj chatId l); auto.
      unfold chat_matches in *. apply andb_prop in Hm, Hc.
      destruct Hm as [Hm _]. destruct Hc as [Hc _].
      destruct cid as [| | | [|z] | | | | | |]; try discriminate Hm.
      simpl in Hm, Hc. apply Z.eqb_eq in Hm, Hc. congruence. }
    subst x. now rewrite Z.eqb_refl.
  - destruct (chatId x =? chatId c) eqn:E; [|reflexivity].
    apply Z.eqb_eq in E.
    assert (x = c) by (apply (key_inj chatId l); auto). subst x. congruence.
Qed.

(** X9.  Renaming a chat of the caller, in a store where [chatId] is a key,
    answers 200 with the metadata of the row under its new name and with
    [updatedAt] the current time; in the store that row, and no other, has
    the new name and time, and its id, owner, MIME type, data and creation
    time are as before. *)
Theorem rename_updates_one_row
  (env : Env) (req : Request) (w : World) (uid : Z) (c : ChatRow) :
  valid_caller req w uid ->
  NoDup (map chatId (chats (db w))) ->
  find (chat_matches (VNum (chat_id req)) (VNum (Num uid))) (chats (db w)) = Some c ->
  patchChatByIdController env req w
  = (Sent (json_response 200
             (item_json req (renamed (now_ms env) (body_name req) c))),
     mkWorld
       (mkDb (users (db w))
             (map (fun x => if chatId x =? chatId c
                            then renamed (now_ms env) (body_name req) x else x)
                  (chats (db w)))
             (nextChatId (db w)))
       (log w ++ [UserFindOne (VNum (Num uid));
                  ChatUpdate (VNum (chat_id req)) (VNum (Num uid));
                  ChatFindOne (VNum (chat_id req)) (VNum (Num uid))])).
Proof.
  intros Hc Hn Hf. pose proof (find_some _ _ Hf) as [Hin Hm].
  pose proof (chat_matches_number _ _ _ Hm) as Hid.
  unfold patchChatByIdController. cbv zeta. rewrite owner_prefix.
  rewrite (valid_caller_admission _ _ _ Hc). destruct Hc as (-> & _).
  rewrite Hid in *.
  unfold bind at 1. rewrite Chat_update_run; [|reflexivity].
  unfold logged. cbn [db log].
  rewrite (filter_key _ c _ Hn Hin Hm).
  2:{ intros x Hx. unfold chat_matches in Hx. apply andb_prop in Hx.
      destruct Hx as [Hx _]. simpl in Hx. apply Z.eqb_eq in Hx. congruence. }
  unfold bind at 1. cbn [get_index read_index lift ret nth List.length Z.of_nat
                         Pos.of_succ_nat].
  unfold bind at 1. cbn [when not_one ret].
  unfold bind at 1. rewrite Chat_findOne_run. cbn [db chats where_rejected orb].
  rewrite find_rename, Hf. cbn [option_map nullable].
  rewrite (rename_row_by_key _ _ _ _ _ c Hn Hin Hm).
  unfold logged. cbn [db log]. rewrite <- !app_assoc. reflexivity.
Qed.

Lemma rename_updates_one_row_witness :
  fst (patchChatByIdController Sample.env (Sample.owner_request 2) Sample.world0)
  = Sent (json_response 200
            (item_json (Sample.owner_request 2)
               (renamed 1700000000000 "note" Sample.chat2))).
Proof.
  rewrite (rename_updates_one_row Sample.env (Sample.owner_request 2)
             Sample.world0 1 Sample.chat2).
  - reflexivity.
  - repeat split; first [reflexivity | discriminate].
  - exact (proj1 sample_db_wf).
  - reflexivity.
Defined.

(** X10.  Whatever the request and whatever it answers, the rename endpoint
    leaves the id, the owner, the MIME type, the data and the creation time
    of every row as they were, and neither adds nor removes a row. *)
Theorem rename_keeps_other_columns (env : Env) (req : Request) (w : World) :
  map fixed_columns (chats (db (snd (patchChatByIdController env req w))))
  = map fixed_columns (chats (db w)).
Proof.
  assert (Hrefl : forall d : Db, map fixed_columns (chats d) = map fixed_columns (chats d))
    by reflexivity.
  assert (Htrans : forall d1 d2 d3 : Db,
             map fixed_columns (chats d1) = map fixed_columns (chats d2) ->
             map fixed_columns (chats d2) = map fixed_columns (chats d3) ->
             map fixed_columns (chats d1) = map fixed_columns (chats d3))
    by (intros; congruence).
  symmetry. revert w.
  change (db_step (fun d d' => map fixed_columns (chats d)
                               = map fixed_columns (chats d'))
                  (patchChatByIdController env req)).
  unfold patchChatByIdController. unfold_reads.
  step_with ltac:(idtac; match goal with
                  | |- db_step _ (Chat_update _ _ _ _) =>
                      intros w'; unfold Chat_update, bind, perform;
                      destruct (where_rejected _ || where_rejected _);
                      [reflexivity | cbn; symmetry; apply map_rename_row_fixed]
                  end).
Qed.

(** ** Delete *)

(** X11.  Deleting a chat of the caller, in a store where [chatId] is a key,
    answers 200 and removes that row and no other: a row is in the table
    afterwards exactly when it was there before and is not the deleted one. *)
Theorem delete_removes_one_row
  (env : Env) (req : Request) (w : World) (uid : Z) (c : ChatRow) :
  valid_caller req w uid ->
  NoDup (map chatId (chats (db w))) ->
  find (chat_matches (VNum (chat_id req)) (VNum (Num uid))) (chats (db w)) = Some c ->
  fst (deleteChatByIdController env req w) = Sent (json_response 200 (message "ok")) /\
  (forall x,
      In x (chats (db (snd (deleteChatByIdController env req w))))
      <-> In x (chats (db w)) /\ x <> c) /\
  users (db (snd (deleteChatByIdController env req w))) = users (db w).
Proof.
  intros Hc Hn Hf. pose proof (find_some _ _ Hf) as [Hin Hm].
  assert (Hid : chat_id req = Num (chatId c)).
  { unfold chat_matches in Hm. apply andb_prop in Hm. destruct Hm as [Hm _].
    now apply sql_eq_number in Hm. }
  assert (H : deleteChatByIdController env req w
              = (Sent (json_response 200 (message "ok")),
                 mkWorld (mkDb (users (db w))
                               (filter (fun x => negb (chatId c =? chatId x))
                                       (chats (db w)))
                               (nextChatId (db w)))
                         (log w ++ [UserFindOne (VNum (Num uid));
                                    ChatFindOne (VNum (chat_id req)) (VNum (Num uid));
                                    ChatDestroy (VNum (Num (chatId c)))]))).
  { unfold deleteChatByIdController. cbv zeta. rewrite owner_prefix.
    rewrite (valid_caller_admission _ _ _ Hc). destruct Hc as (-> & _).
    unfold bind at 1. rewrite Chat_findOne_run. unfold logged. cbn [db log].
    rewrite Hf, Hid. cbn. rewrite <- !app_assoc. reflexivity. }
  rewrite H. cbn [fst snd db chats users].
  split; [reflexivity|]. split; [|reflexivity].
  intros x. rewrite filter_In. split.
  - intros [Hx Hk]. split; [exact Hx|].
    intros ->. now rewrite Z.eqb_refl in Hk.
  - intros [Hx Hne]. split; [exact Hx|].
    destruct (chatId c =? chatId x) eqn:E; [|reflexivity].
    apply Z.eqb_eq in E. exfalso. apply Hne.
    apply (key_inj chatId (chats (db w))); auto.
Qed.

Lemma delete_removes_one_row_witness :
  fst (deleteChatByIdController Sample.env (Sample.owner_request 2) Sample.world0)
  = Sent (json_response 200 (message "ok")) /\
  chats (db (snd (deleteChatByIdController Sample.env (Sample.owner_request 2)
                    Sample.world0)))
  = [Sample.chat1; Sample.chat3; Sample.chat4].
Proof.
  destruct (delete_removes_one_row Sample.env (Sample.owner_request 2)
              Sample.world0 1 Sample.chat2) as (Hr & _ & _).
  - repeat split; first [reflexivity | discriminate].
  - exact (proj1 sample_db_wf).
  - reflexivity.
  - split; [exact Hr | reflexivity].
Defined.

(** ** The blob of a chat *)

(** X12.  The owner's blob endpoint answers 200 with the stored bytes as the
    body and the stored MIME type as [Content-Type] when the caller owns a
    chat with the requested id; it reads the store twice (user, chat) and
    writes nothing. *)
Theorem owner_blob_is_stored_data
  (env : Env) (req : Request) (w : World) (uid : Z) (c : ChatRow) :
  valid_caller req w uid ->
  find (chat_matches (VNum (chat_id req)) (VNum (Num uid))) (chats (db w)) = Some c ->
  getChatBlobController env req w
  = (Sent (mkResponse 200 [("Content-Type", VStr (mimeType c))] (Raw (data c))),
     logged w [UserFindOne (VNum (Num uid));
               ChatFindOne (VNum (chat_id req)) (VNum (Num uid))]).
Proof.
  intros Hc Hf. rewrite (getChatBlob_run _ _ _ _ Hc), Hf.
  pose proof (find_some _ _ Hf) as [_ Hm].
  now rewrite (chat_matches_number _ _ _ Hm).
Qed.

Lemma owner_blob_is_stored_data_witness :
  fst (getChatBlobController Sample.env (Sample.owner_request 4) Sample.world0)
  = Sent (mkResponse 200 [("Content-Type", VStr "text/plain")]
            (Raw (data Sample.chat4))).
Proof.
  rewrite (owner_blob_is_stored_data Sample.env (Sample.owner_request 4)
             Sample.world0 1 Sample.chat4).
  - reflexivity.
  - repeat split; first [reflexivity | discriminate].
  - reflexivity.
Defined.

Lemma find_app {A : Type} (p : A -> bool) (l1 l2 : list A) :
  find p (l1 ++ l2)
  = match find p l1 with
    | Some x => Some x
    | None => find p l2
    end.
Proof.
  induction l1 as [|x l1 IH]; simpl; [reflexivity|].
  destruct (p x); [reflexivity | exact IH].
Qed.

Lemma find_fresh (d : Db) (uid : JsValue) :
  fresh_ids d ->
  find (chat_matches (VNum (Num (nextChatId d))) uid) (chats d) = None.
Proof.
  intros Hf. destruct (find _ _) as [x|] eqn:E; [|reflexivity].
  apply find_some in E. destruct E as [Hin Hm].
  apply (proj1 (Forall_forall _ _) Hf) in Hin.
  unfold chat_matches in Hm. apply andb_prop in Hm. destruct Hm as [Hm _].
  simpl in Hm. apply Z.eqb_eq in Hm. lia.
Qed.

(** X13.  Create, then fetch: after a create request with the body
    [data:<type>/<subtype>;base64,<payload>] (type of two or more word
    characters, subtype of the class of the pattern, payload without comma),
    the owner's blob endpoint answers, for the id the create assigned, the
    decoded payload under the content type [<type>/<subtype>]. *)
Theorem created_blob_round_trip
  (env env' : Env) (req req' : Request) (w : World) (uid : Z)
  (type subtype payload : string) :
  valid_caller req w uid ->
  fresh_ids (db w) ->
  body_base64 req = data_uri type subtype payload ->
  (2 <= String.length type)%nat ->
  all_chars is_word type = true ->
  (1 <= String.length subtype)%nat ->
  all_chars is_subtype_char subtype = true ->
  all_chars (fun a => negb (a =? ",")%char) payload = true ->
  auth_userId req' = Num uid ->
  chat_id req' = Num (nextChatId (db w)) ->
  fst (getChatBlobController env' req' (snd (postChatController env req w)))
  = Sent (mkResponse 200 [("Content-Type", VStr (type ++ "/" ++ subtype)%string)]
            (Raw (base64_decode payload))).
Proof.
  intros Hc Hfresh Hb Hlt Ht Hls Hs Hp Ha Hid.
  destruct (data_uri_parse type subtype payload Hlt Ht Hls Hs Hp) as [Hm Hn].
  rewrite <- Hb in Hm, Hn.
  rewrite (postChat_run env req w uid _ _ Hc Hm Hn). cbn [snd].
  assert (Hc' : valid_caller req'
                  (mkWorld (mkDb (users (db w))
                     (chats (db w)
                      ++ [mkChat (nextChatId (db w)) uid (body_name req)
                            (type ++ "/" ++ subtype)%string (base64_decode payload)
                            (now_ms env) (now_ms env)])
                     (nextChatId (db w) + 1))
                     (log w ++ [UserFindOne (VNum (Num uid));
                                UserCreateChat (VNum (Num uid))])) uid).
  { destruct Hc as (_ & Hz & Hu). repeat split; auto. }
  rewrite (getChatBlob_run env' req' _ uid Hc'). cbn [fst db chats].
  rewrite Hid, find_app, (find_fresh _ _ Hfresh).
  unfold find, chat_matches, sql_eq. cbn [chatId userId mimeType data].
  now rewrite !Z.eqb_refl.
Qed.

Lemma created_blob_round_trip_witness :
  fst (getChatBlobController Sample.env (Sample.owner_request 5)
         (snd (postChatController Sample.env (Sample.owner_request 0) Sample.world0)))
  = Sent (mkResponse 200 [("Content-Type", VStr "text/plain")]
            (Raw (base64_decode "aGVsbG8="))).
Proof.
  apply (created_blob_round_trip Sample.env Sample.env (Sample.owner_request 0)
           (Sample.owner_request 5) Sample.world0 1 "text" "plain" "aGVsbG8=");
    try reflexivity.
  - repeat split; first [reflexivity | discriminate].
  - exact (proj2 sample_db_wf).
  - simpl; lia.
  - simpl; lia.
Defined.

(** ** The list endpoint: validation and paging *)

Lemma list_paging_guard (env : Env) (req : Request) (w : World) (uid : Z) :
  valid_caller req w uid ->
  js_not (VNum (perPage req)) || js_not (VNum (page req)) = true ->
  getAllChatsController env req w
  = (Sent (json_response 400 (message "Invalid perPage or page")),
     logged w [UserFindOne (VNum (Num uid))]).
Proof.
  intros Hc Hg. unfold getAllChatsController. cbv zeta. rewrite owner_prefix.
  rewrite (valid_caller_admission _ _ _ Hc). now rewrite Hg.
Qed.

(** X14.  A list request of a valid caller in which [perPage] or [page] is
    missing, not a number or zero is answered 400 "Invalid perPage or page"
    before any query on the chats is run, whatever the sort key. *)
Theorem list_rejects_bad_paging
  (env : Env) (req : Request) (w : World) (uid : Z) :
  valid_caller req w uid ->
  perPage req = NaN \/ perPage req = Num 0 \/ page req = NaN \/ page req = Num 0 ->
  getAllChatsController env req w
  = (Sent (json_response 400 (message "Invalid perPage or page")),
     logged w [UserFindOne (VNum (Num uid))]).
Proof.
  intros Hc Hp. apply list_paging_guard; [exact Hc|].
  destruct Hp as [-> | [-> | [-> | ->]]]; cbn;
    try reflexivity; apply orb_true_r.
Qed.

Lemma list_rejects_bad_paging_witness :
  getAllChatsController Sample.env (Sample.list_request 5 0 "name") Sample.world0
  = (Sent (json_response 400 (message "Invalid perPage or page")),
     logged Sample.world0 [UserFindOne (VNum (Num 1))]).
Proof.
  apply (list_rejects_bad_paging Sample.env _ Sample.world0 1).
  - repeat split; first [reflexivity | discriminate].
  - right; right; right. reflexivity.
Defined.

Lemma bad_sort_key_spec (v : JsValue) :
  bad_sort_key v = false <-> exists key, v = VStr key /\ In key allowed_sort_keys.
Proof.
  split.
  - destruct v; try discriminate. unfold bad_sort_key. cbn [typeof].
    intros H. apply orb_false_elim in H. destruct H as [_ H].
    apply negb_false_iff in H. exists s. split; [reflexivity|].
    unfold string_in in H. apply existsb_exists in H.
    destruct H as (x & Hx & Hxs). apply String.eqb_eq in Hxs. now subst.
  - intros (key & -> & Hk). unfold bad_sort_key. cbn [typeof].
    destruct (allowed_sort_key_cases key Hk) as [-> | [-> | ->]]; reflexivity.
Qed.

(** X15.  A list request of a valid caller with usable [perPage] and [page]
    whose [sortBy] is not one of the strings [createdAt], [name] and
    [updatedAt] (a missing one included) is answered 400 before any query on
    the chats is run. *)
Theorem list_rejects_bad_sort
  (env : Env) (req : Request) (w : World) (uid per pg : Z) :
  valid_caller req w uid ->
  perPage req = Num per -> per <> 0 ->
  page req = Num pg -> pg <> 0 ->
  (forall key, sortBy req = VStr key -> ~ In key allowed_sort_keys) ->
  getAllChatsController env req w
  = (Sent (json_response 400
             (message "shortBy Should be name, createdAt or updatedAt")),
     logged w [UserFindOne (VNum (Num uid))]).
Proof.
  intros Hc Hper Hp Hpg Hg Hs.
  unfold getAllChatsController. cbv zeta. rewrite owner_prefix.
  rewrite (valid_caller_admission _ _ _ Hc). rewrite Hper, Hpg.
  unfold js_not, truthy.
  apply Z.eqb_neq in Hp, Hg. rewrite Hp, Hg. cbn [negb orb when].
  unfold bind at 1. cbn [ret].
  destruct (bad_sort_key (sortBy req)) eqn:E; [reflexivity|].
  apply bad_sort_key_spec in E. destruct E as (key & Hk & Hin).
  now destruct (Hs key Hk).
Qed.

Lemma list_rejects_bad_sort_witness :
  getAllChatsController Sample.env (Sample.list_request 5 1 "size") Sample.world0
  = (Sent (json_response 400
             (message "shortBy Should be name, createdAt or updatedAt")),
     logged Sample.world0 [UserFindOne (VNum (Num 1))]).
Proof.
  apply (list_rejects_bad_sort Sample.env _ Sample.world0 1 5 1);
    try reflexivity; try discriminate.
  - repeat split; first [reflexivity | discriminate].
  - intros key Hk. injection Hk as <-. simpl. intuition discriminate.
Defined.

Lemma firstn_add {A : Type} (a b : nat) (l : list A) :
  firstn (a + b) l = firstn a l ++ firstn b (skipn a l).
Proof.
  revert l. induction a as [|a IH]; intros l; [reflexivity|].
  destruct l as [|x l]; simpl; [now rewrite firstn_nil | now rewrite IH].
Qed.

Lemma concat_pages {A B : Type} (f : A -> B) (n k : nat) (l : list A) :
  List.concat (map (fun i => map f (firstn n (skipn (n * i) l))) (seq 0 k))
  = map f (firstn (n * k) l).
Proof.
  induction k as [|k IH]; [now rewrite Nat.mul_0_r|].
  rewrite seq_S, map_app, concat_app, IH. cbn [map List.concat plus].
  rewrite app_nil_r, <- map_app. f_equal.
  replace (n * S k)%nat with (n * k + n)%nat by lia.
  now rewrite firstn_add.
Qed.

Lemma ordered_chats_length (uid : Z) (key : string) (d : Db) :
  Z.of_nat (List.length (ordered_chats uid key d)) = count_owned (VNum (Num uid)) d.
Proof.
  unfold count_owned. f_equal. apply Permutation_length, ordered_chats_perm.
Qed.

Lemma valid_with_page (req : Request) (w : World) (uid per pg pg' : Z) (key : string) :
  valid_list_request req w uid per pg key -> 0 < pg' ->
  valid_list_request (with_page req pg') w uid per pg' key.
Proof.
  intros (Hc & Hper & Hp & _ & _ & Hs & Hk) Hg. repeat split; auto; apply Hc.
Qed.

(** X16.  The pages of a list request partition the caller's chats: for an
    accepted request, the items of the pages 1 to [k], one after the other,
    are the metadata of all the chats of the caller in the requested order,
    each once, as soon as [k * perPage] reaches their number. *)
Theorem pages_cover_all_chats
  (env : Env) (req : Request) (w : World) (uid per pg : Z) (key : string) (k : nat) :
  valid_list_request req w uid per pg key ->
  count_owned (VNum (Num uid)) (db w) <= per * Z.of_nat k ->
  pages env req w k = map (chat_json req) (ordered_chats uid key (db w)).
Proof.
  intros Hv Hk. unfold pages.
  rewrite (map_ext_in _
             (fun i => map (chat_json req)
                         (firstn (Z.to_nat per)
                            (skipn (Z.to_nat per * i) (ordered_chats uid key (db w)))))).
  - rewrite concat_pages. f_equal. apply firstn_all2.
    pose proof (ordered_chats_length uid key (db w)). nia.
  - intros i _.
    assert (Hi : 0 < Z.of_nat i + 1) by lia.
    rewrite (getAllChats_run env _ w uid per (Z.of_nat i + 1) key
               (valid_with_page req w uid per pg _ key Hv Hi)).
    cbn [fst response_items body]. unfold page_rows.
    replace (Z.to_nat (per * (Z.of_nat i + 1 - 1))) with (Z.to_nat per * i)%nat.
    + reflexivity.
    + destruct Hv as (_ & _ & Hp & _). nia.
Qed.

Lemma pages_cover_all_chats_witness :
  pages Sample.env (Sample.list_request 2 1 "name") Sample.world0 2
  = map (chat_json (Sample.list_request 2 1 "name"))
        (ordered_chats 1 "name" Sample.db0).
Proof.
  apply (pages_cover_all_chats Sample.env _ Sample.world0 1 2 1 "name" 2).
  - apply valid_sample_list_request; [reflexivity | reflexivity | simpl; tauto].
  - cbn. lia.
Defined.

Lemma link_entries_rels (req : Request) (per pg total : Z) :
  perPage req = Num per -> per <> 0 -> page req = Num pg ->
  (has_rel "prev" (link_entries req (Num total)) <-> 1 < pg) /\
  (has_rel "next" (link_entries req (Num total)) <-> pg < ceil_div total per).
Proof.
  intros Hper Hp Hpg. unfold link_entries. rewrite Hper, Hpg.
  unfold js_lt, js_ceil_div. apply Z.eqb_neq in Hp. rewrite Hp.
  cbn [js_gt]. rewrite !has_rel_app.
  destruct (1 <? pg) eqn:E1; destruct (pg <? ceil_div total per) eqn:E2;
    rewrite ?Z.ltb_lt, ?Z.ltb_ge in E1, E2;
    rewrite ?has_rel_single; cbn [rel];
    split; split; intros H;
    repeat match goal with
           | H : _ \/ _ |- _ => destruct H
           | H : has_rel _ [] |- _ => destruct (has_rel_nil _ H)
           | H : ?a = ?b |- _ => discriminate H
           end;
    try lia; auto.
Qed.



(** X18.  When all the chats of the caller fit on one page, the first page
    carries them all and its [Link] header is the empty string. *)
Theorem single_page_has_empty_link
  (env : Env) (req : Request) (w : World) (uid per : Z) (key : string) :
  valid_list_request req w uid per 1 key ->
  count_owned (VNum (Num uid)) (db w) <= per ->
  fst (getAllChatsController env req w)
  = Sent (mkResponse 200 [("Link", VStr "")]
            (Json (VArr (map (chat_json req) (ordered_chats uid key (db w)))))).
Proof.
  intros Hv Ht. rewrite (getAllChats_run env req w uid per 1 key Hv).
  destruct Hv as (Hc & Hper & Hp & Hpg & Hg & Hs & Hk).
  cbn [fst]. f_equal. f_equal; [f_equal; f_equal; f_equal | f_equal; f_equal; f_equal].
  - unfold link_entries. rewrite Hper, Hpg. unfold js_lt, js_ceil_div.
    replace (per =? 0) with false by (symmetry; apply Z.eqb_neq; lia).
    cbn [js_gt]. replace (1 <? 1) with false by reflexivity.
    replace (1 <? ceil_div (count_owned (VNum (Num uid)) (db w)) per) with false;
      [reflexivity|].
    symmetry. apply Z.ltb_ge.
    pose proof (ceil_div_spec (count_owned (VNum (Num uid)) (db w)) per Hp). nia.
  - unfold page_rows. replace (per * (1 - 1)) with 0 by lia.
    simpl skipn. apply firstn_all2.
    pose proof (ordered_chats_length uid key (db w)). lia.
Qed.

Lemma single_page_has_empty_link_witness :
  fst (getAllChatsController Sample.env (Sample.list_request 3 1 "name") Sample.world0)
  = Sent (mkResponse 200 [("Link", VStr "")]
            (Json (VArr (map (chat_json (Sample.list_request 3 1 "name"))
                           (ordered_chats 1 "name" Sample.db0))))).
Proof.
  apply (single_page_has_empty_link Sample.env _ Sample.world0 1 3 "name").
  - apply valid_sample_list_request; [reflexivity | reflexivity | simpl; tauto].
  - cbn. lia.
Defined.

(** ** Share tokens: issue, expiry, use *)

Lemma life_time_expiry (env : Env) (req : Request) (secs : Z) :
  life_time env req = Some secs ->
  exists s span,
    (if truthy (expiresIn req) then expiresIn req else VStr "30d") = VStr s /\
    ms env s = Some span /\ secs = span / 1000.
Proof.
  unfold life_time. destruct (truthy (expiresIn req)).
  - destruct (expiresIn req); try discriminate.
    destruct (ms env s) as [span|] eqn:E; [|discriminate].
    intros H. injection H as <-. now exists s, span.
  - destruct (ms env "30d") as [span|] eqn:E; [|discriminate].
    intros H. injection H as <-. now exists "30d", span.
Qed.

Lemma getToken_issues (env : Env) (req : Request) (w : World) (uid : Z)
  (key : string) (secs : Z) :
  valid_caller req w uid ->
  JWT_SECRET env = Some key ->
  key <> "" ->
  life_time env req = Some secs ->
  getTokenByIdController env req w
  = (Sent (mkResponse 200
             [("chat-token", issued_token env key (chat_id req) secs)]
             (Json (message "ok"))),
     logged w [UserFindOne (VNum (Num uid));
               UserHasChat (VNum (Num uid)) (VNum (chat_id req))]).
Proof.
  intros Hc Hk Hne Hl. rewrite (getToken_run _ _ _ _ Hc). cbv zeta.
  destruct (life_time_expiry _ _ _ Hl) as (s & span & -> & Hms & ->).
  cbn [typeof String.eqb negb when to_string].
  unfold bind at 1. cbn [ret]. unfold try_catch, bind, sign.
  apply String.eqb_neq in Hne. rewrite Hk, Hne, Hms. reflexivity.
Qed.

(** X19.  For a valid caller, with the signing secret set to a non-empty
    string and an [expiresIn] that [jwt.sign] can read (or none, which stands
    for 30 days), the token
    endpoint answers 200 with a [chat-token] header holding a token for the
    requested [chatId] that expires the given number of seconds after the
    current time; it consults the store for the user and (without waiting
    for the answer) for the chat, and changes nothing. *)
Theorem token_is_issued
  (env : Env) (req : Request) (w : World) (uid : Z) (key : string) (secs : Z) :
  valid_caller req w uid ->
  JWT_SECRET env = Some key ->
  key <> "" ->
  life_time env req = Some secs ->
  getTokenByIdController env req w
  = (Sent (mkResponse 200
             [("chat-token",
               VToken (VObj [("chatId", json_number (chat_id req))]) key
                      (Some (now_seconds env + secs)))]
             (Json (message "ok"))),
     logged w [UserFindOne (VNum (Num uid));
               UserHasChat (VNum (Num uid)) (VNum (chat_id req))]).
Proof. exact (getToken_issues env req w uid key secs). Qed.

Lemma token_is_issued_witness :
  fst (getTokenByIdController Sample.env (Sample.owner_request 1) Sample.world0)
  = Sent (mkResponse 200
            [("chat-token",
              VToken (VObj [("chatId", VNum (Num 1))]) "secret" (Some 1702592000))]
            (Json (message "ok"))).
Proof.
  rewrite (token_is_issued Sample.env (Sample.owner_request 1) Sample.world0 1
             "secret" 2592000).
  - reflexivity.
  - repeat split; first [reflexivity | discriminate].
  - reflexivity.
  - discriminate.
  - reflexivity.
Defined.

(** X20.  The token endpoint answers 400 and issues nothing when [expiresIn]
    is present and not a string ("expiresIn Should be string"), and when
    [jwt.sign] throws, which it does for a time span it cannot read and for
    a missing signing secret (both "Invalid expiresIn"). *)
Theorem token_request_is_validated
  (env : Env) (req : Request) (w : World) (uid : Z) :
  valid_caller req w uid ->
  let expiry := if truthy (expiresIn req) then expiresIn req else VStr "30d" in
  (typeof expiry <> "string" ->
   fst (getTokenByIdController env req w)
   = Sent (json_response 400 (message "expiresIn Should be string"))) /\
  (typeof expiry = "string" ->
   JWT_SECRET env = None \/ ms env (to_string expiry) = None ->
   fst (getTokenByIdController env req w)
   = Sent (json_response 400 (message "Invalid expiresIn"))).
Proof.
  intros Hc expiry. rewrite (getToken_run _ _ _ _ Hc). cbv zeta. fold expiry.
  split.
  - intros Ht. apply String.eqb_neq in Ht. unfold bind at 1. now rewrite Ht.
  - intros Ht Hs. apply String.eqb_eq in Ht. unfold bind at 1. rewrite Ht.
    cbn [negb when ret]. unfold try_catch, bind, sign.
    destruct (JWT_SECRET env) as [key|]; [|reflexivity].
    destruct (key =? "")%string; [reflexivity|].
    destruct Hs as [Hs | Hs]; [discriminate | now rewrite Hs].
Qed.

Lemma token_request_is_validated_witness :
  fst (getTokenByIdController Sample.env
         (mkRequest (Num 1) (Num 1) VUndefined NaN NaN VUndefined (VStr "soon")
                    "" "" "http" "localhost" "/api/chats" "/" "/api/chats/1/token")
         Sample.world0)
  = Sent (json_response 400 (message "Invalid expiresIn")).
Proof.
  apply (token_request_is_validated Sample.env _ Sample.world0 1).
  - repeat split; first [reflexivity | discriminate].
  - reflexivity.
  - right. reflexivity.
Defined.

Lemma verify_issued (env env' : Env) (key : string) (cid : JsNumber) (secs : Z)
  (w : World) :
  JWT_SECRET env' = Some key ->
  verify env' (issued_token env key cid secs) w
  = (if now_seconds env + secs <=? now_seconds env'
     then Thrown (TokenExpiredError "jwt expired")
     else Next (VObj [("chatId", json_number cid)]),
     w).
Proof.
  intros Hk. unfold verify, issued_token. rewrite Hk, String.eqb_refl.
  now destruct (now_seconds env + secs <=? now_seconds env').
Qed.

Lemma find_pointwise {A : Type} (p q : A -> bool) (l : list A) :
  (forall x, p x = q x) -> find p l = find q l.
Proof.
  intros H. induction l as [|x l IH]; simpl; [reflexivity|].
  now rewrite H, IH.
Qed.

Lemma find_filter_head {A : Type} (p : A -> bool) (l : list A) (c : A) :
  find p l = Some c -> exists rest, filter p l = c :: rest.
Proof.
  induction l as [|x l IH]; simpl; [discriminate|].
  destruct (p x) eqn:E.
  - intros H. injection H as ->. now eexists.
  - exact IH.
Qed.

Lemma getBlobWithJwt_found
  (env : Env) (req : Request) (w : World) (payload pk : JsValue) (c : ChatRow) :
  verifies env (token req) payload ->
  read_prop payload "chatId" = inr pk ->
  find (fun c => sql_eq pk (chatId c)) (chats (db w)) = Some c ->
  getBlobWithJwtController env req w
  = (Sent (mkResponse 200 [("Content-Type", VStr (mimeType c))] (Raw (data c))),
     logged w [ChatFindByPk pk]).
Proof.
  intros Hv Hp Hf. unfold getBlobWithJwtController. cbv zeta.
  unfold try_catch. unfold bind at 1. rewrite (verify_run _ _ _ _ Hv).
  unfold bind at 1, get_prop. rewrite Hp. cbn [lift ret].
  unfold bind at 1. rewrite Chat_findByPk_run, Hf. reflexivity.
Qed.



Lemma getBlobWithJwt_rejected (env : Env) (req : Request) (w : World) (e : JsError) :
  verify env (token req) w = (Thrown e, w) ->
  getBlobWithJwtController env req w
  = (Sent (json_response 410 (message (error_message e))), w).
Proof.
  intros Hv. unfold getBlobWithJwtController. cbv zeta.
  unfold try_catch. unfold bind at 1. now rewrite Hv.
Qed.

(** X22.  A token that does not verify (not a token, signed with another
    key, expired, or no secret configured) is answered 410 by both
    token-scoped endpoints, with the same message, and neither endpoint
    touches the datastore for it. *)
Theorem rejected_token_touches_nothing (env : Env) (req : Request) (w : World) :
  (forall payload, ~ verifies env (token req) payload) ->
  exists m,
    getChatWithJwtController env req w = (Sent (json_response 410 (message m)), w) /\
    getBlobWithJwtController env req w = (Sent (json_response 410 (message m)), w).
Proof.
  intros Hn. destruct (verify_cases env (token req) w) as [(p & Hv & _) | (e & He)].
  - now destruct (Hn p).
  - exists (error_message e).
    split; [now apply getChatWithJwt_rejected | now apply getBlobWithJwt_rejected].
Qed.

Lemma rejected_token_touches_nothing_witness :
  exists m,
    getChatWithJwtController Sample.env (Sample.token_request (VStr "not a token"))
      Sample.world0
    = (Sent (json_response 410 (message m)), Sample.world0) /\
    getBlobWithJwtController Sample.env (Sample.token_request (VStr "not a token"))
      Sample.world0
    = (Sent (json_response 410 (message m)), Sample.world0).
Proof.
  apply (rejected_token_touches_nothing Sample.env
           (Sample.token_request (VStr "not a token")) Sample.world0).
  intros payload (key & exp & H & _). discriminate H.
Defined.

(** X23.  Issue, then use (the signing secret being a non-empty string):
    the token the share endpoint issues for a chat id
    opens both token-scoped endpoints for the stored chat with that id until
    its life time is over, for any holder and any later state of the store
    that has the chat, whoever owns the chat; from the expiry on both
    endpoints answer 410 "jwt expired".  A life time of zero or fewer seconds
    gives a token that is expired from the start. *)
Theorem issued_token_round_trip
  (env : Env) (req : Request) (w : World) (uid cid : Z) (key : string) (secs : Z) :
  valid_caller req w uid ->
  JWT_SECRET env = Some key ->
  key <> "" ->
  life_time env req = Some secs ->
  chat_id req = Num cid ->
  exists tok,
    fst (getTokenByIdController env req w)
    = Sent (mkResponse 200 [("chat-token", tok)] (Json (message "ok"))) /\
    (forall env' req' w' c,
        JWT_SECRET env' = Some key ->
        token req' = tok ->
        now_seconds env' < now_seconds env + secs ->
        find (fun c => chatId c =? cid) (chats (db w')) = Some c ->
        fst (getBlobWithJwtController env' req' w')
        = Sent (mkResponse 200 [("Content-Type", VStr (mimeType c))] (Raw (data c))) /\
        fst (getChatWithJwtController env' req' w')
        = Sent (json_response 200 (shared_json req' c))) /\
    (forall env' req' w',
        JWT_SECRET env' = Some key ->
        token req' = tok ->
        now_seconds env + secs <= now_seconds env' ->
        fst (getBlobWithJwtController env' req' w')
        = Sent (json_response 410 (message "jwt expired")) /\
        fst (getChatWithJwtController env' req' w')
        = Sent (json_response 410 (message "jwt expired"))).
Proof.
  intros Hc Hk Hne Hl Hid. exists (issued_token env key (chat_id req) secs).
  rewrite (getToken_issues env req w uid key secs Hc Hk Hne Hl).
  split; [reflexivity|]. rewrite Hid. split.
  - intros env' req' w' c Hk' Htok Hnow Hf.
    assert (Hv : verifies env' (token req') (VObj [("chatId", VNum (Num cid))])).
    { rewrite Htok. exists key, (Some (now_seconds env + secs)). now repeat split. }
    assert (Hf' : find (fun c => sql_eq (VNum (Num cid)) (chatId c)) (chats (db w'))
                  = Some c).
    { rewrite <- Hf. apply find_pointwise. intros x. apply Z.eqb_sym. }
    split.
    + now rewrite (getBlobWithJwt_found env' req' w' _ (VNum (Num cid)) c Hv).
    + rewrite (getChatWithJwt_verified env' req' w' _ (VNum (Num cid)) Hv);
        [| reflexivity | discriminate | discriminate].
      destruct (find_filter_head _ _ _ Hf') as (rest & ->). reflexivity.
  - intros env' req' w' Hk' Htok Hnow.
    assert (Hv : verify env' (token req') w'
                 = (Thrown (TokenExpiredError "jwt expired"), w')).
    { rewrite Htok, (verify_issued env env' key _ secs w' Hk').
      apply Z.leb_le in Hnow. now rewrite Hnow. }
    split.
    + now rewrite (getBlobWithJwt_rejected env' req' w' _ Hv).
    + now rewrite (getChatWithJwt_rejected env' req' w' _ Hv).
Qed.

Lemma issued_token_round_trip_witness :
  exists tok,
    fst (getTokenByIdController Sample.env (Sample.owner_request 3) Sample.world0)
    = Sent (mkResponse 200 [("chat-token", tok)] (Json (message "ok"))) /\
    fst (getBlobWithJwtController Sample.env (Sample.token_request tok) Sample.world0)
    = Sent (mkResponse 200 [("Content-Type", VStr "image/png")] (Raw [])).
Proof.
  destruct (issued_token_round_trip Sample.env (Sample.owner_request 3)
              Sample.world0 1 3 "secret" 2592000) as (tok & Hi & Huse & _).
  - repeat split; first [reflexivity | discriminate].
  - reflexivity.
  - discriminate.
  - reflexivity.
  - reflexivity.
  - exists tok. split; [exact Hi|].
    apply (Huse Sample.env (Sample.token_request tok) Sample.world0 Sample.chat3).
    + reflexivity.
    + reflexivity.
    + reflexivity.
    + reflexivity.
Defined.

(** ** The dashboard and the [Link] header *)

Lemma starts_with_app (sub rest : string) :
  Dashboard.starts_with (sub ++ rest) sub = true.
Proof.
  induction sub as [|a sub IH]; [reflexivity|].
  cbn [append Dashboard.starts_with]. now rewrite Ascii.eqb_refl, IH.
Qed.

Lemma includes_here (s sub : string) :
  Dashboard.starts_with s sub = true -> Dashboard.includes s sub = true.
Proof. intros H. destruct s; cbn [Dashboard.includes]; now rewrite H. Qed.

Lemma includes_app_r (p s sub : string) :
  Dashboard.includes s sub = true -> Dashboard.includes (p ++ s) sub = true.
Proof.
  intros H. induction p as [|a p IH]; [exact H|].
  cbn [append Dashboard.includes]. rewrite IH. apply orb_true_r.
Qed.

Lemma starts_with_app_l (s q sub : string) :
  Dashboard.starts_with s sub = true -> Dashboard.starts_with (s ++ q) sub = true.
Proof.
  revert s. induction sub as [|b sub IH]; intros s H; [reflexivity|].
  destruct s as [|a s]; [discriminate|].
  cbn [append Dashboard.starts_with] in *.
  apply andb_prop in H. destruct H as [-> H]. now rewrite (IH _ H).
Qed.

Lemma includes_app_l (s q sub : string) :
  Dashboard.includes s sub = true -> Dashboard.includes (s ++ q) sub = true.
Proof.
  induction s as [|a s IH]; cbn [Dashboard.includes]; intros H.
  - rewrite orb_false_r in H. apply includes_here.
      now apply (starts_with_app_l EmptyString).
  - apply orb_prop in H. destruct H as [H | H].
    + apply includes_here. now apply (starts_with_app_l (String a s)).
    + cbn [append Dashboard.includes]. rewrite (IH H). apply orb_true_r.
Qed.

Lemma includes_concat (sep sub x : string) (xs : list string) :
  In x xs -> Dashboard.includes x sub = true ->
  Dashboard.includes (String.concat sep xs) sub = true.
Proof.
  intros Hin Hx. induction xs as [|y ys IH]; [contradiction|].
  destruct ys as [|z zs].
  - destruct Hin as [<- | []]. exact Hx.
  - change (String.concat sep (y :: z :: zs))
      with (y ++ sep ++ String.concat sep (z :: zs))%string.
    destruct Hin as [<- | Hin].
    + now apply includes_app_l.
    + apply includes_app_r, includes_app_r. now apply IH.
Qed.

Lemma render_link_includes_rel (l : LinkEntry) :
  Dashboard.includes (render_link l) (rel l) = true.
Proof.
  unfold render_link.
  apply (includes_app_r "<"), includes_app_r, (includes_app_r ">; rel="),
    (includes_app_r dquote).
  apply includes_here, starts_with_app.
Qed.

Lemma rendered_links_include_rel (r : string) (links : list LinkEntry) :
  has_rel r links -> Dashboard.includes (render_links links) r = true.
Proof.
  intros (l & Hin & <-). unfold render_links.
  apply includes_concat with (render_link l).
  - now apply in_map.
  - apply render_link_includes_rel.
Qed.

(** X24.  Whenever an accepted list request is not for the last page
    ([page * perPage] is below the number of chats of the caller), the
    [Link] header of the response makes the dashboard offer the next page:
    with fresh data, [hasNext] is true and [onNextChat] moves to
    [page + 1]. *)
Theorem next_page_is_offered
  (env : Env) (req : Request) (w : World) (uid per pg : Z) (key : string) :
  valid_list_request req w uid per pg key ->
  pg * per < count_owned (VNum (Num uid)) (db w) ->
  exists link body,
    fst (getAllChatsController env req w)
    = Sent (mkResponse 200 [("Link", VStr link)] body) /\
    Dashboard.hasNext false (Some link) = true /\
    Dashboard.onNextChat false (Some link) pg = pg + 1.
Proof.
  intros Hv Ht. rewrite (getAllChats_run env req w uid per pg key Hv).
  destruct Hv as (Hc & Hper & Hp & Hpg & Hg & Hs & Hk).
  eexists. eexists. cbn [fst]. split; [reflexivity|].
  assert (Hn : Dashboard.link_includes_next
                 (Some (render_links
                          (link_entries req
                             (Num (count_owned (VNum (Num uid)) (db w)))))) = true).
  { apply rendered_links_include_rel.
    apply (link_entries_rels req per pg _ Hper); [lia | exact Hpg |].
    pose proof (ceil_div_spec (count_owned (VNum (Num uid)) (db w)) per Hp). nia. }
  unfold Dashboard.hasNext, Dashboard.onNextChat. now rewrite Hn.
Qed.

Lemma next_page_is_offered_witness :
  exists link body,
    fst (getAllChatsController Sample.env (Sample.list_request 2 1 "name")
           Sample.world0)
    = Sent (mkResponse 200 [("Link", VStr link)] body) /\
    Dashboard.hasNext false (Some link) = true /\
    Dashboard.onNextChat false (Some link) 1 = 1 + 1.
Proof.
  apply (next_page_is_offered Sample.env _ Sample.world0 1 2 1 "name").
  - apply valid_sample_list_request; [reflexivity | reflexivity | simpl; tauto].
  - cbn. lia.
Defined.

Lemma click_bounds (p : Z) (c : Dashboard.Click) :
  0 <= p -> 0 <= Dashboard.click p c <= p + 1.
Proof.
  intros Hp. destruct c as [|isPrev link]; cbn [Dashboard.click].
  - unfold Dashboard.onPrevChat. lia.
  - unfold Dashboard.onNextChat.
    destruct (negb isPrev && Dashboard.link_includes_next link); lia.
Qed.

(** X25.  The page number of the dashboard never becomes negative, and after
    [n] clicks it is at most [n + 1]; the previous-page handler does not
    stop at the first page, it stops at zero. *)
Theorem dashboard_page_bounds (clicks : list Dashboard.Click) :
  0 <= Dashboard.page_after clicks <= 1 + Z.of_nat (List.length clicks) /\
  Dashboard.page_after (clicks ++ [Dashboard.ClickPrev])
  = Z.max (Dashboard.page_after clicks - 1) 0 /\
  Dashboard.page_after [Dashboard.ClickPrev] = 0.
Proof.
  split; [|split; [|reflexivity]].
  - unfold Dashboard.page_after.
    assert (H : forall p, 0 <= p ->
              0 <= fold_left Dashboard.click clicks p
                <= p + Z.of_nat (List.length clicks)).
    { induction clicks as [|c cs IH]; intros p Hp; [simpl; lia|].
      cbn [fold_left List.length].
      pose proof (click_bounds p c Hp) as Hc.
      specialize (IH (Dashboard.click p c) (proj1 Hc)). lia. }
    apply H. lia.
  - unfold Dashboard.page_after. now rewrite fold_left_app.
Qed.
